(** * golcs: longest common subsequence of two slices

    A shallow embedding of [golcs.go] (package [lcs]) and the properties of
    its table construction, backtracking and session cache.

    Go values are embedded as follows.
    - [int] is [Z].  The integers the program computes are indices,
      lengths plus one and table entries; the entries lie between 0 and
      the length of the shorter input (lemma [lcsT_bounds]), so for inputs
      whose table fits in memory 64-bit arithmetic does not wrap and no
      wrap-around is written out.
    - A slice is a [list]; a slice-typed cache field or blocking result that
      may be [nil] is an [option (list _)] with [None] for [nil].
    - Indexing, storing and [make] are checked: an index out of range or a
      negative length is the run-time panic [Panic].
    - [reflect.DeepEqual] on the element type is a parameter [DeepEqual]; a
      concrete fragment of it over Go values is [reflect_DeepEqual].
    - A [context.Context] is what successive polls of [ctx.Done()] observe.
    - Every computation also reports its [work]: the number of allocations
      ([make]) and of [reflect.DeepEqual] calls it performed.

    Line numbers are those of [golcs.go]; the second source file declares
    [Lcs] as a struct instead of an interface and has the same method
    bodies. *)

From stdpp Require Import base list strings.
From Stdlib Require Import ZArith Lia.

Open Scope Z_scope.

(** ** Results of running Go code *)

(** [context.Canceled] and [context.DeadlineExceeded], the two values of
    [ctx.Err()] once [ctx.Done()] is closed. *)
Inductive error : Type :=
| Canceled
| DeadlineExceeded.

(** How a piece of code ends: normally with a value, by returning a non-nil
    [error], by a run-time panic, or (for the model of an unbounded loop)
    by exhausting the iteration budget it was given. *)
Inductive outcome (A : Type) : Type :=
| Ok (a : A)
| Err (e : error)
| Panic
| OutOfFuel.

Arguments Ok {A} a.
Arguments Err {A} e.
Arguments Panic {A}.
Arguments OutOfFuel {A}.

(** A computation without access to the session: its outcome and its work. *)
Definition C (A : Type) : Type := (outcome A * nat)%type.

Definition run {A} (c : C A) : outcome A := fst c.

Definition cret {A} (a : A) : C A := (Ok a, 0%nat).

Definition cbind {A B} (m : C A) (f : A -> C B) : C B :=
  match m with
  | (Ok a, n) => let (o, k) := f a in (o, (n + k)%nat)
  | (Err e, n) => (Err e, n)
  | (Panic, n) => (Panic, n)
  | (OutOfFuel, n) => (OutOfFuel, n)
  end.

Notation "'do' x <- m ; k" := (cbind m (fun x => k))
  (at level 10, x name, m at level 100, k at level 200).

(** One unit of work, then the value. *)
Definition tick {A} (a : A) : C A := (Ok a, 1%nat).

Definition fail {A} (o : outcome A) : C A := (o, 0%nat).

(** ** Slices *)

(** [len(l)] *)
Definition len {A} (l : list A) : Z := Z.of_nat (length l).

(** [l[i]], panicking out of range. *)
Definition index {A} (l : list A) (i : Z) : C A :=
  if bool_decide (0 <= i) then
    match l !! Z.to_nat i with
    | Some a => cret a
    | None => fail Panic
    end
  else fail Panic.

(** [l[i] = v], panicking out of range. *)
Definition store {A} (l : list A) (i : Z) (v : A) : C (list A) :=
  if bool_decide (0 <= i < len l) then cret (<[Z.to_nat i := v]> l)
  else fail Panic.

(** [make([]A, n)]: [n] copies of the zero value; a negative [n] panics. *)
Definition make {A} (zero : A) (n : Z) : C (list A) :=
  if bool_decide (0 <= n) then tick (replicate (Z.to_nat n) zero)
  else fail Panic.

(** [t[x][y]] *)
Definition index2 (t : list (list Z)) (x y : Z) : C Z :=
  do row <- index t x; index row y.

(** [t[x][y] = v] *)
Definition store2 (t : list (list Z)) (x y : Z) (v : Z) : C (list (list Z)) :=
  do row <- index t x;
  do row' <- store row y v;
  store t x row'.

(** The builtin [max] of three [int]s. *)
Definition max3 (a b c : Z) : Z := Z.max (Z.max a b) c.

(** ** Loops *)

(** [for i := start; i < start + n; i++ { s = body(i, s) }] *)
Fixpoint for_range {S} (n : nat) (i : Z) (body : Z -> S -> C S) (s : S) : C S :=
  match n with
  | O => cret s
  | S n' => do s' <- body i s; for_range n' (i + 1) body s'
  end.

(** [for i, a := range l { s = body(i, a, s) }], [i] counted from [start]. *)
Fixpoint for_each {A S} (l : list A) (i : Z) (body : Z -> A -> S -> C S) (s : S) : C S :=
  match l with
  | [] => cret s
  | a :: l' => do s' <- body i a s; for_each l' (i + 1) body s'
  end.

(** [for cond(s) { s = body(s) }], given a budget of iterations. *)
Fixpoint while {S} (fuel : nat) (cond : S -> bool) (body : S -> C S) (s : S) : C S :=
  if cond s then
    match fuel with
    | O => fail OutOfFuel
    | S fuel' => do s' <- body s; while fuel' cond body s'
    end
  else cret s.

(** ** Contexts *)

(** A [context.Context] as the code observes it: the [k]-th [select] on
    [ctx.Done()] of a call (counted from 0) either finds the channel open
    ([None]) or closed, with [ctx.Err()] then being [Some e]. *)
Definition Context : Type := nat -> option error.

(** [context.Background()]: never done. *)
Definition Background : Context := fun _ => None.

(** A context that no poll finds done. *)
Definition NeverDone (ctx : Context) : Prop := forall k, ctx k = None.

(** A context already done, with error [e], when the call starts. *)
Definition AlreadyDone (ctx : Context) (e : error) : Prop := forall k, ctx k = Some e.

(** ** The data model *)

Record IndexPair : Type := mkIndexPair { Left : Z; Right : Z }.

Section Lcs.

Context {E : Type}.
(** [reflect.DeepEqual] on two elements. *)
Variable DeepEqual : E -> E -> bool.
(** The zero value of the element type. *)
Variable zeroE : E.

(** [struct lcs]: the two inputs and the three cache fields. *)
Record lcs : Type := mkLcs {
  left : list E;
  right : list E;
  table : option (list (list Z));
  indexPairs : option (list IndexPair);
  values : option (list E)
}.

(** What a method call leaves: its outcome, the session afterwards and the
    work it performed. *)
Record Result (A : Type) : Type := mkResult {
  out : outcome A;
  sess : lcs;
  work : nat
}.
Arguments mkResult {A}.
Arguments out {A}.
Arguments sess {A}.
Arguments work {A}.

(** [New] *)
Definition New (l r : list E) : lcs :=
  {| left := l; right := r; table := None; indexPairs := None; values := None |}.

(** *** TableContext *)

(** Lines 72-74: [for x := 0; x < sizeX; x++ { table[x] = make([]int, sizeY) }] *)
Definition TableContext_rows (sizeY : Z) (x : Z) (t : list (list Z)) : C (list (list Z)) :=
  do row <- make 0 sizeY;
  store t x row.

(** Lines 84-88: the body of the [x] loop. *)
Definition TableContext_cell (l r : list E) (y x : Z) (t : list (list Z)) : C (list (list Z)) :=
  do a <- index l (x - 1);
  do b <- index r (y - 1);
  do eq <- tick (DeepEqual a b);
  let increment := if eq then 1 else 0 in
  do d <- index2 t (x - 1) (y - 1);
  do u <- index2 t (x - 1) y;
  do w <- index2 t x (y - 1);
  store2 t x y (max3 (d + increment) u w).

(** Lines 77-89: the body of the [y] loop; the poll of [ctx.Done()] for
    column [y] is the [(y-1)]-th of the call. *)
Definition TableContext_column (ctx : Context) (l r : list E) (sizeX : Z) (y : Z)
    (t : list (list Z)) : C (list (list Z)) :=
  match ctx (Z.to_nat (y - 1)) with
  | Some e => fail (Err e)
  | None => for_range (Z.to_nat (sizeX - 1)) 1 (TableContext_cell l r y) t
  end.

(** Lines 68-90: the table of a session with an empty cache. *)
Definition TableContext_build (ctx : Context) (l r : list E) : C (list (list Z)) :=
  let sizeX := len l + 1 in
  let sizeY := len r + 1 in
  do t <- make [] sizeX;
  do t <- for_range (Z.to_nat sizeX) 0 (TableContext_rows sizeY) t;
  for_range (Z.to_nat (sizeY - 1)) 1 (TableContext_column ctx l r sizeX) t.

Definition TableContext (ctx : Context) (s : lcs) : Result (list (list Z)) :=
  match table s with
  | Some t => mkResult (Ok t) s 0
  | None =>
    match TableContext_build ctx (left s) (right s) with
    | (Ok t, n) =>
      mkResult (Ok t)
        {| left := left s; right := right s; table := Some t;
           indexPairs := indexPairs s; values := values s |} n
    | (Err e, n) => mkResult (Err e) s n
    | (Panic, n) => mkResult Panic s n
    | (OutOfFuel, n) => mkResult OutOfFuel s n
    end
  end.

(** [v, _ = call; return v]: a blocking method drops the error and returns
    whatever the result variable holds, [dflt] ([nil] or [0]) on an error. *)
Definition drop_error {A B} (f : A -> B) (dflt : B) (r : Result A) : Result B :=
  mkResult
    match out r with
    | Ok a => Ok (f a)
    | Err _ => Ok dflt
    | Panic => Panic
    | OutOfFuel => OutOfFuel
    end (sess r) (work r).

(** [Table] *)
Definition Table (s : lcs) : Result (option (list (list Z))) :=
  drop_error Some None (TableContext Background s).

(** *** LengthContext *)

Definition LengthContext (ctx : Context) (s : lcs) : Result Z :=
  let r := TableContext ctx s in
  match out r with
  | Ok t =>
    match index2 t (len (left s)) (len (right s)) with
    | (o, n) => mkResult o (sess r) (work r + n)
    end
  | Err e => mkResult (Err e) (sess r) (work r)
  | Panic => mkResult Panic (sess r) (work r)
  | OutOfFuel => mkResult OutOfFuel (sess r) (work r)
  end.

(** [Length] *)
Definition Length (s : lcs) : Result Z :=
  drop_error id 0 (LengthContext Background s).

(** *** IndexPairsContext *)

(** The variables of the backtracking loop. *)
Record walk : Type := mkWalk { wx : Z; wy : Z; wpairs : list IndexPair }.

(** Line 130: [x > 0 && y > 0] *)
Definition IndexPairsContext_cond (w : walk) : bool :=
  bool_decide (wx w > 0) && bool_decide (wy w > 0).

(** Lines 131-141: the body of the backtracking loop. *)
Definition IndexPairsContext_step (l r : list E) (t : list (list Z)) (w : walk) : C walk :=
  let x := wx w in
  let y := wy w in
  do a <- index l (x - 1);
  do b <- index r (y - 1);
  do eq <- tick (DeepEqual a b);
  if eq then
    do k <- index2 t x y;
    do pairs <- store (wpairs w) (k - 1) {| Left := x - 1; Right := y - 1 |};
    cret {| wx := x - 1; wy := y - 1; wpairs := pairs |}
  else
    do u <- index2 t (x - 1) y;
    do v <- index2 t x (y - 1);
    if bool_decide (u >= v) then cret {| wx := x - 1; wy := y; wpairs := wpairs w |}
    else cret {| wx := x; wy := y - 1; wpairs := wpairs w |}.

(** Lines 128-142.  Each iteration lowers [x + y] by at least one, so
    [len(left) + len(right)] iterations are a sufficient budget. *)
Definition IndexPairsContext_build (l r : list E) (t : list (list Z)) : C (list IndexPair) :=
  do row0 <- index t 0;
  do n <- index2 t (len t - 1) (len row0 - 1);
  do pairs <- make {| Left := 0; Right := 0 |} n;
  do w <- while (Z.to_nat (len l + len r)) IndexPairsContext_cond
            (IndexPairsContext_step l r t)
            {| wx := len l; wy := len r; wpairs := pairs |};
  cret (wpairs w).

Definition IndexPairsContext (ctx : Context) (s : lcs) : Result (list IndexPair) :=
  match indexPairs s with
  | Some p => mkResult (Ok p) s 0
  | None =>
    let r := TableContext ctx s in
    match out r with
    | Ok t =>
      match IndexPairsContext_build (left s) (right s) t with
      | (Ok p, n) =>
        mkResult (Ok p)
          {| left := left (sess r); right := right (sess r); table := table (sess r);
             indexPairs := Some p; values := values (sess r) |} (work r + n)
      | (Err e, n) => mkResult (Err e) (sess r) (work r + n)
      | (Panic, n) => mkResult Panic (sess r) (work r + n)
      | (OutOfFuel, n) => mkResult OutOfFuel (sess r) (work r + n)
      end
    | Err e => mkResult (Err e) (sess r) (work r)
    | Panic => mkResult Panic (sess r) (work r)
    | OutOfFuel => mkResult OutOfFuel (sess r) (work r)
    end
  end.

(** [IndexPairs] *)
Definition IndexPairs (s : lcs) : Result (option (list IndexPair)) :=
  drop_error Some None (IndexPairsContext Background s).

(** *** ValuesContext *)

(** Line 168: [values[i] = lcs.left[pair.Left]] *)
Definition ValuesContext_step (l : list E) (i : Z) (pair : IndexPair) (vs : list E) : C (list E) :=
  do v <- index l (Left pair);
  store vs i v.

(** Lines 166-169. *)
Definition ValuesContext_build (l : list E) (pairs : list IndexPair) : C (list E) :=
  do vs <- make zeroE (len pairs);
  for_each pairs 0 (ValuesContext_step l) vs.

Definition ValuesContext (ctx : Context) (s : lcs) : Result (list E) :=
  match values s with
  | Some v => mkResult (Ok v) s 0
  | None =>
    let r := IndexPairsContext ctx s in
    match out r with
    | Ok p =>
      match ValuesContext_build (left s) p with
      | (Ok v, n) =>
        mkResult (Ok v)
          {| left := left (sess r); right := right (sess r); table := table (sess r);
             indexPairs := indexPairs (sess r); values := Some v |} (work r + n)
      | (Err e, n) => mkResult (Err e) (sess r) (work r + n)
      | (Panic, n) => mkResult Panic (sess r) (work r + n)
      | (OutOfFuel, n) => mkResult OutOfFuel (sess r) (work r + n)
      end
    | Err e => mkResult (Err e) (sess r) (work r)
    | Panic => mkResult Panic (sess r) (work r)
    | OutOfFuel => mkResult OutOfFuel (sess r) (work r)
    end
  end.

(** [Values] *)
Definition Values (s : lcs) : Result (option (list E)) :=
  drop_error Some None (ValuesContext Background s).

(** [Left] and [Right], the accessors of the inputs. *)
Definition Lcs_Left (s : lcs) : list E := left s.
Definition Lcs_Right (s : lcs) : list E := right s.

End Lcs.

Arguments mkLcs {E}.
Arguments mkResult {E A}.
Arguments out {E A}.
Arguments sess {E A}.
Arguments work {E A}.

(** ** A fragment of Go's values and of [reflect.DeepEqual]

    The element type [E] may be any Go type, [any] included.  The values
    below are those of an [[]any] holding integers, strings, the [nil]
    interface and non-nil function values ([GoFunc f] for the function
    numbered [f]).  [reflect.DeepEqual] compares integers and strings with
    [==], never equates values of different types, and, as its
    documentation states, treats function values as deeply equal only when
    both are nil: a non-nil function is not deeply equal to itself. *)
Inductive GoValue : Type :=
| GoNil
| GoInt (n : Z)
| GoString (s : string)
| GoFunc (f : nat).

Definition reflect_DeepEqual (a b : GoValue) : bool :=
  match a, b with
  | GoNil, GoNil => true
  | GoInt n, GoInt m => bool_decide (n = m)
  | GoString s, GoString t => bool_decide (s = t)
  | _, _ => false
  end.

Definition strs (l : list string) : list GoValue := GoString <$> l.


(** ** The monad of computations *)

Lemma run_cbind {A B} (m : C A) (f : A -> C B) :
  run (cbind m f) =
  match run m with
  | Ok a => run (f a)
  | Err e => Err e
  | Panic => Panic
  | OutOfFuel => OutOfFuel
  end.
Proof.
  destruct m as [[a|e| |] n]; simpl; try reflexivity.
  destruct (f a); reflexivity.
Qed.

Lemma run_cbind_ok {A B} (m : C A) (f : A -> C B) a :
  run m = Ok a -> run (cbind m f) = run (f a).
Proof. intros H. rewrite run_cbind, H. reflexivity. Qed.

Lemma run_cret {A} (a : A) : run (cret a) = Ok a.
Proof. reflexivity. Qed.

Lemma run_tick {A} (a : A) : run (tick a) = Ok a.
Proof. reflexivity. Qed.

(** ** Slices indexed by in-range integers *)

Lemma len_nonneg {A} (l : list A) : 0 <= len l.
Proof. unfold len. lia. Qed.

Lemma run_index {A} (l : list A) (i : nat) a :
  l !! i = Some a -> run (index l (Z.of_nat i)) = Ok a.
Proof.
  intros H. unfold index. rewrite bool_decide_eq_true_2 by lia.
  rewrite Nat2Z.id, H. reflexivity.
Qed.

Lemma run_index_Z {A} (l : list A) (i : Z) a :
  0 <= i -> l !! Z.to_nat i = Some a -> run (index l i) = Ok a.
Proof.
  intros Hi H. rewrite <- (Z2Nat.id i) by lia. apply run_index, H.
Qed.

Lemma run_store {A} (l : list A) (i : nat) v :
  (i < length l)%nat -> run (store l (Z.of_nat i) v) = Ok (<[i := v]> l).
Proof.
  intros H. unfold store, len. rewrite bool_decide_eq_true_2 by lia.
  rewrite Nat2Z.id. reflexivity.
Qed.

Lemma run_make {A} (z : A) (n : nat) :
  run (make z (Z.of_nat n)) = Ok (replicate n z).
Proof.
  unfold make. rewrite bool_decide_eq_true_2 by lia.
  rewrite Nat2Z.id. reflexivity.
Qed.

(** A loop whose body keeps an invariant, indexed by the number of
    iterations done, runs to completion and ends in the invariant. *)
Lemma for_range_invariant {S} (I : nat -> S -> Prop) (body : Z -> S -> C S) n start s :
  I O s ->
  (forall k s, (k < n)%nat -> I k s ->
     exists s', run (body (start + Z.of_nat k) s) = Ok s' /\ I (Datatypes.S k) s') ->
  exists s', run (for_range n start body s) = Ok s' /\ I n s'.
Proof.
  revert I start s. induction n as [|n IH]; intros I start s H0 Hstep.
  - exists s. split; [reflexivity|exact H0].
  - destruct (Hstep O s ltac:(lia) H0) as (s1 & Hb & H1).
    rewrite Z.add_0_r in Hb. simpl. rewrite (run_cbind_ok _ _ _ Hb).
    apply (IH (fun k => I (Datatypes.S k))); [exact H1|].
    intros k s2 Hk Hs2. destruct (Hstep (Datatypes.S k) s2 ltac:(lia) Hs2) as (s3 & Hb3 & H3).
    exists s3. split; [|exact H3].
    rewrite <- Hb3. do 2 f_equal. lia.
Qed.

(** ** The table as a function of the two inputs *)

Section Recurrence.

Context {E : Type}.
Variable DeepEqual : E -> E -> bool.
Variables l r : list E.

(** The [increment] of line 84 for [left[x]] and [right[y]]. *)
Definition inc (x y : nat) : Z :=
  match l !! x, r !! y with
  | Some a, Some b => if DeepEqual a b then 1 else 0
  | _, _ => 0
  end.

(** The value line 88 assigns to [table[x][y]], as a function of [x], [y]. *)
Fixpoint lcsT (x : nat) : nat -> Z :=
  match x with
  | O => fun _ => 0
  | S x' =>
    fix column (y : nat) : Z :=
      match y with
      | O => 0
      | S y' => max3 (lcsT x' y' + inc x' y') (lcsT x' y) (column y')
      end
  end.

Lemma inc_range x y : 0 <= inc x y <= 1.
Proof.
  unfold inc. destruct (l !! x), (r !! y); try lia.
  destruct (DeepEqual _ _); lia.
Qed.

Lemma lcsT_0_l y : lcsT 0 y = 0.
Proof. reflexivity. Qed.

Lemma lcsT_0_r x : lcsT x 0 = 0.
Proof. destruct x; reflexivity. Qed.

Lemma lcsT_S_S x y :
  lcsT (S x) (S y) = max3 (lcsT x y + inc x y) (lcsT x (S y)) (lcsT (S x) y).
Proof. reflexivity. Qed.

Lemma lcsT_nonneg x y : 0 <= lcsT x y.
Proof.
  destruct x as [|x]; [rewrite lcsT_0_l; lia|].
  induction y as [|y IH]; [rewrite lcsT_0_r; lia|].
  rewrite lcsT_S_S. unfold max3. lia.
Qed.

Lemma lcsT_mono_l x y : lcsT x y <= lcsT (S x) y.
Proof.
  destruct y as [|y]; [rewrite !lcsT_0_r; lia|].
  rewrite (lcsT_S_S x y). unfold max3. lia.
Qed.

Lemma lcsT_mono_r x y : lcsT x y <= lcsT x (S y).
Proof.
  destruct x as [|x]; [rewrite !lcsT_0_l; lia|].
  rewrite (lcsT_S_S x y). unfold max3. lia.
Qed.

Lemma lcsT_mono x y x' y' :
  (x <= x')%nat -> (y <= y')%nat -> lcsT x y <= lcsT x' y'.
Proof.
  intros Hx Hy. transitivity (lcsT x' y).
  - induction Hx; [lia|]. pose proof (lcsT_mono_l m y). lia.
  - induction Hy; [lia|]. pose proof (lcsT_mono_r x' m). lia.
Qed.

(** One more element on either side adds at most one. *)
Lemma lcsT_step_l x y : lcsT (S x) y <= lcsT x y + 1.
Proof.
  induction y as [|y IH]; [rewrite !lcsT_0_r; lia|].
  rewrite lcsT_S_S. unfold max3.
  pose proof (inc_range x y). pose proof (lcsT_mono_r x y). lia.
Qed.

Lemma lcsT_step_r x y : lcsT x (S y) <= lcsT x y + 1.
Proof.
  induction x as [|x IH]; [rewrite !lcsT_0_l; lia|].
  rewrite lcsT_S_S. unfold max3.
  pose proof (inc_range x y). pose proof (lcsT_mono_l x y). lia.
Qed.

Lemma lcsT_bounds x y : 0 <= lcsT x y <= Z.of_nat (min x y).
Proof.
  split; [apply lcsT_nonneg|].
  revert y. induction x as [|x IH]; intros y; [rewrite lcsT_0_l; lia|].
  destruct y as [|y]; [rewrite lcsT_0_r; lia|].
  rewrite lcsT_S_S. unfold max3.
  pose proof (IH y). pose proof (IH (S y)).
  pose proof (lcsT_step_l x y). pose proof (inc_range x y). lia.
Qed.

(** The recurrence in its two-branch form: on a match the diagonal term
    wins, otherwise it never exceeds its two neighbours. *)
Lemma lcsT_match x y : inc x y = 1 -> lcsT (S x) (S y) = lcsT x y + 1.
Proof.
  intros Hi. rewrite lcsT_S_S, Hi. unfold max3.
  pose proof (lcsT_step_l x y). pose proof (lcsT_step_r x y). lia.
Qed.

Lemma lcsT_mismatch x y :
  inc x y = 0 -> lcsT (S x) (S y) = Z.max (lcsT x (S y)) (lcsT (S x) y).
Proof.
  intros Hi. rewrite lcsT_S_S, Hi. unfold max3.
  pose proof (lcsT_mono_r x y). lia.
Qed.

End Recurrence.

Arguments lcsT : simpl never.

(** ** Tables given by a function *)

(** The [m] by [n] table whose entry [[x][y]] is [f x y]. *)
Definition mkTable (m n : nat) (f : nat -> nat -> Z) : list (list Z) :=
  (fun x => f x <$> seq 0 n) <$> seq 0 m.

(** [f] with the entry at [(x, y)] replaced by [v]. *)
Definition fupd (f : nat -> nat -> Z) (x y : nat) (v : Z) : nat -> nat -> Z :=
  fun i j => if bool_decide (i = x /\ j = y) then v else f i j.

Lemma length_mkTable m n f : length (mkTable m n f) = m.
Proof. unfold mkTable. rewrite length_fmap, length_seq. reflexivity. Qed.

Lemma mkTable_lookup m n f (x : nat) :
  (x < m)%nat -> mkTable m n f !! x = Some (f x <$> seq 0 n).
Proof.
  intros H. unfold mkTable. rewrite list_lookup_fmap, lookup_seq_lt by lia.
  reflexivity.
Qed.

Lemma mkTable_row m n f row : row ∈ mkTable m n f -> length row = n.
Proof.
  unfold mkTable. intros (x & -> & _)%list_elem_of_fmap.
  rewrite length_fmap, length_seq. reflexivity.
Qed.

Lemma mkTable_ext m n f g :
  (forall x y, (x < m)%nat -> (y < n)%nat -> f x y = g x y) ->
  mkTable m n f = mkTable m n g.
Proof.
  intros H. unfold mkTable. apply list_eq. intros x.
  rewrite !list_lookup_fmap. destruct (seq 0 m !! x) as [x'|] eqn:Hx; [|reflexivity].
  apply lookup_seq in Hx as [-> Hx]. simpl. f_equal.
  apply list_eq. intros y. rewrite !list_lookup_fmap.
  destruct (seq 0 n !! y) as [y'|] eqn:Hy; [|reflexivity].
  apply lookup_seq in Hy as [-> Hy]. simpl. f_equal. apply H; lia.
Qed.

Lemma mkTable_replicate m n : replicate m (replicate n 0) = mkTable m n (fun _ _ => 0).
Proof.
  unfold mkTable. apply list_eq. intros x.
  rewrite list_lookup_fmap.
  destruct (decide (x < m)%nat) as [Hx|Hx].
  - rewrite lookup_replicate_2, lookup_seq_lt by lia. simpl. f_equal.
    apply list_eq. intros y. rewrite list_lookup_fmap.
    destruct (decide (y < n)%nat) as [Hy|Hy].
    + rewrite lookup_replicate_2, lookup_seq_lt by lia. reflexivity.
    + rewrite lookup_ge_None_2, lookup_seq_ge by (rewrite ?length_replicate; lia).
      reflexivity.
  - rewrite lookup_ge_None_2, lookup_seq_ge by (rewrite ?length_replicate; lia).
      reflexivity.
Qed.

Lemma run_index2_mkTable m n f (x y : nat) :
  (x < m)%nat -> (y < n)%nat ->
  run (index2 (mkTable m n f) (Z.of_nat x) (Z.of_nat y)) = Ok (f x y).
Proof.
  intros Hx Hy. unfold index2.
  rewrite (run_cbind_ok _ _ (f x <$> seq 0 n)) by (apply run_index, mkTable_lookup, Hx).
  apply run_index. rewrite list_lookup_fmap, lookup_seq_lt by lia. reflexivity.
Qed.

Lemma run_store2_mkTable m n f (x y : nat) v :
  (x < m)%nat -> (y < n)%nat ->
  run (store2 (mkTable m n f) (Z.of_nat x) (Z.of_nat y) v) = Ok (mkTable m n (fupd f x y v)).
Proof.
  intros Hx Hy. unfold store2.
  rewrite (run_cbind_ok _ _ (f x <$> seq 0 n)) by (apply run_index, mkTable_lookup, Hx).
  rewrite (run_cbind_ok _ _ (<[y := v]> (f x <$> seq 0 n)))
    by (apply run_store; rewrite length_fmap, length_seq; exact Hy).
  rewrite run_store by (rewrite length_mkTable; exact Hx).
  f_equal. apply list_eq. intros i.
  destruct (decide (i = x)) as [->|Hi].
  - rewrite list_lookup_insert_eq by (rewrite length_mkTable; exact Hx).
    rewrite mkTable_lookup by exact Hx. f_equal.
    apply list_eq. intros j. rewrite list_lookup_fmap.
    destruct (decide (j = y)) as [->|Hj].
    + rewrite list_lookup_insert_eq by (rewrite length_fmap, length_seq; exact Hy).
      rewrite lookup_seq_lt by lia. simpl. unfold fupd.
      rewrite bool_decide_eq_true_2 by done. reflexivity.
    + rewrite list_lookup_insert_ne by done. rewrite list_lookup_fmap.
      destruct (seq 0 n !! j) as [j'|] eqn:Hs; [|reflexivity].
      apply lookup_seq in Hs as [-> _]. simpl. unfold fupd.
      rewrite bool_decide_eq_false_2 by (intros [_ ?]; done). reflexivity.
  - rewrite list_lookup_insert_ne by done.
    unfold mkTable. rewrite !list_lookup_fmap.
    destruct (seq 0 m !! i) as [i'|] eqn:Hs; [|reflexivity].
    apply lookup_seq in Hs as [-> _]. simpl. f_equal.
    apply list_eq. intros j. rewrite !list_lookup_fmap.
    destruct (seq 0 n !! j) as [j'|]; [|reflexivity]. simpl. unfold fupd.
    rewrite bool_decide_eq_false_2 by (intros [? _]; done). reflexivity.
Qed.

(** ** Table construction *)

(** The first error the polls [k], [k+1], ..., [k+n-1] of a context find. *)
Fixpoint first_done (ctx : Context) (k n : nat) : option error :=
  match n with
  | O => None
  | S n' =>
    match ctx k with
    | Some e => Some e
    | None => first_done ctx (S k) n'
    end
  end.

Lemma first_done_never ctx k n : NeverDone ctx -> first_done ctx k n = None.
Proof.
  intros H. revert k. induction n as [|n IH]; intros k; simpl; [reflexivity|].
  rewrite H. apply IH.
Qed.

Lemma first_done_already ctx e n : ctx O = Some e -> first_done ctx 0 (S n) = Some e.
Proof. intros H. simpl. rewrite H. reflexivity. Qed.

Section Build.

Context {E : Type}.
Variable DeepEqual : E -> E -> bool.
Variables l r : list E.

Let m := length l.
Let n := length r.
Let T := lcsT DeepEqual l r.

(** The table while column [y] is being filled and its rows below [x] are done. *)
Definition partialT (y x : nat) : nat -> nat -> Z :=
  fun i j => if bool_decide (j < y \/ (j = y /\ i < x))%nat then lcsT DeepEqual l r i j else 0.

Lemma run_rows (a b : nat) :
  run (for_range a 0 (TableContext_rows (Z.of_nat b)) (replicate a []))
  = Ok (replicate a (replicate b 0)).
Proof.
  destruct (for_range_invariant
    (fun k t => t = replicate k (replicate b 0) ++ replicate (a - k) [])
    (TableContext_rows (Z.of_nat b)) a 0 (replicate a [])) as (t & Hrun & ->).
  - rewrite Nat.sub_0_r. reflexivity.
  - intros k t Hk ->. eexists. split.
    + unfold TableContext_rows. rewrite (run_cbind_ok _ _ _ (run_make 0 b)).
      rewrite Z.add_0_l. apply run_store.
      rewrite length_app, !length_replicate. lia.
    + rewrite insert_app_r_alt by (rewrite length_replicate; lia).
      rewrite length_replicate, Nat.sub_diag.
      replace (a - k)%nat with (S (a - S k)) by lia. simpl.
      change (replicate k (replicate b 0) ++ replicate b 0 :: replicate (a - S k) [] =
              replicate (S k) (replicate b 0) ++ replicate (a - S k) []).
      rewrite (replicate_S_end k), <- app_assoc. reflexivity.
  - rewrite Hrun, Nat.sub_diag, app_nil_r. reflexivity.
Qed.

Lemma run_cell (x y : nat) :
  (1 <= x <= m)%nat -> (1 <= y <= n)%nat ->
  run (TableContext_cell DeepEqual l r (Z.of_nat y) (Z.of_nat x)
         (mkTable (S m) (S n) (partialT y x)))
  = Ok (mkTable (S m) (S n) (partialT y (S x))).
Proof.
  intros Hx Hy. destruct x as [|x]; [lia|]. destruct y as [|y]; [lia|].
  destruct (lookup_lt_is_Some_2 l x ltac:(fold m; lia)) as [a Ha].
  destruct (lookup_lt_is_Some_2 r y ltac:(fold n; lia)) as [b Hb].
  unfold TableContext_cell.
  replace (Z.of_nat (S x) - 1) with (Z.of_nat x) by lia.
  replace (Z.of_nat (S y) - 1) with (Z.of_nat y) by lia.
  rewrite (run_cbind_ok _ _ _ (run_index l x a Ha)).
  rewrite (run_cbind_ok _ _ _ (run_index r y b Hb)).
  rewrite (run_cbind_ok _ _ _ (run_tick _)).
  rewrite (run_cbind_ok _ _ _ (run_index2_mkTable (S m) (S n) _ x y ltac:(lia) ltac:(lia))).
  rewrite (run_cbind_ok _ _ _ (run_index2_mkTable (S m) (S n) _ x (S y) ltac:(lia) ltac:(lia))).
  rewrite (run_cbind_ok _ _ _ (run_index2_mkTable (S m) (S n) _ (S x) y ltac:(lia) ltac:(lia))).
  rewrite run_store2_mkTable by lia. f_equal.
  apply mkTable_ext. intros i j Hi Hj. unfold fupd, partialT.
  repeat case_bool_decide; try lia; try reflexivity.
  destruct_and!. subst i j. rewrite lcsT_S_S. unfold inc. rewrite Ha, Hb. reflexivity.
Qed.

Lemma run_column ctx (y : nat) :
  (1 <= y <= n)%nat -> ctx (y - 1)%nat = None ->
  run (TableContext_column DeepEqual ctx l r (len l + 1) (Z.of_nat y)
         (mkTable (S m) (S n) (partialT y 1)))
  = Ok (mkTable (S m) (S n) (partialT (S y) 1)).
Proof.
  intros Hy Hctx. unfold TableContext_column.
  replace (Z.to_nat (Z.of_nat y - 1)) with (y - 1)%nat by lia. rewrite Hctx.
  replace (Z.to_nat (len l + 1 - 1)) with m by (unfold len, m; lia).
  destruct (for_range_invariant
    (fun k t => t = mkTable (S m) (S n) (partialT y (S k)))
    (TableContext_cell DeepEqual l r (Z.of_nat y)) m 1
    (mkTable (S m) (S n) (partialT y 1))) as (t & Hrun & ->).
  - reflexivity.
  - intros k t Hk ->. eexists. split; [|reflexivity].
    replace (1 + Z.of_nat k) with (Z.of_nat (S k)) by lia.
    apply run_cell; lia.
  - rewrite Hrun. f_equal. apply mkTable_ext. intros i j Hi Hj.
    unfold partialT. repeat case_bool_decide; try lia; try reflexivity.
    replace i with O by lia. rewrite lcsT_0_l. reflexivity.
Qed.

Lemma run_columns ctx (k : nat) (y : nat) :
  (1 <= y)%nat -> (y + k = S n)%nat ->
  run (for_range k (Z.of_nat y) (TableContext_column DeepEqual ctx l r (len l + 1))
         (mkTable (S m) (S n) (partialT y 1)))
  = match first_done ctx (y - 1) k with
    | Some e => Err e
    | None => Ok (mkTable (S m) (S n) T)
    end.
Proof.
  revert y. induction k as [|k IH]; intros y Hy Hk.
  - cbn [for_range first_done]. rewrite run_cret. f_equal.
    apply mkTable_ext. intros i j Hi Hj.
    unfold partialT. rewrite bool_decide_eq_true_2 by lia. reflexivity.
  - cbn [for_range first_done]. rewrite run_cbind.
    destruct (ctx (y - 1)%nat) as [e|] eqn:Hctx.
    + unfold TableContext_column.
      replace (Z.to_nat (Z.of_nat y - 1)) with (y - 1)%nat by lia.
      rewrite Hctx. reflexivity.
    + rewrite run_column by (done || lia).
      replace (Z.of_nat y + 1) with (Z.of_nat (S y)) by lia.
      rewrite IH by lia. replace (S y - 1)%nat with (S (y - 1)) by lia.
      reflexivity.
Qed.

(** Lines 68-90 end with the table of the recurrence, unless a poll finds
    the context done, and then with its error. *)
Lemma run_build ctx :
  run (TableContext_build DeepEqual ctx l r)
  = match first_done ctx 0 n with
    | Some e => Err e
    | None => Ok (mkTable (S m) (S n) T)
    end.
Proof.
  unfold TableContext_build.
  replace (len l + 1) with (Z.of_nat (S m)) by (unfold len, m; lia).
  replace (len r + 1) with (Z.of_nat (S n)) by (unfold len, n; lia).
  rewrite (run_cbind_ok _ _ _ (run_make _ _)).
  rewrite Nat2Z.id, (run_cbind_ok _ _ _ (run_rows _ _)).
  replace (Z.to_nat (Z.of_nat (S n) - 1)) with n by lia.
  rewrite mkTable_replicate.
  replace (Z.of_nat (S m)) with (len l + 1) by (unfold len, m; lia).
  rewrite (mkTable_ext _ _ _ (partialT 1 1)).
  - apply (run_columns ctx n 1); lia.
  - intros i j Hi Hj. unfold partialT. case_bool_decide as H; [|reflexivity].
    destruct H as [H|[-> H]].
    + replace j with O by lia. rewrite lcsT_0_r. reflexivity.
    + replace i with O by lia. rewrite lcsT_0_l. reflexivity.
Qed.

End Build.

(** ** Backtracking *)

Lemma run_make_Z {A} (z : A) (n : Z) :
  0 <= n -> run (make z n) = Ok (replicate (Z.to_nat n) z).
Proof.
  intros H. rewrite <- (Z2Nat.id n) at 1 by lia. apply run_make.
Qed.

Lemma drop_insert_here {A} (l : list A) (i : nat) (v : A) :
  (i < length l)%nat -> drop i (<[i := v]> l) = v :: drop (S i) l.
Proof.
  intros H. destruct (lookup_lt_is_Some_2 l i H) as [a Ha].
  rewrite drop_insert_ge by lia. rewrite Nat.sub_diag.
  rewrite (drop_S l a i Ha). reflexivity.
Qed.

(** A loop whose body keeps an invariant and lowers a measure ends, within
    a budget no smaller than the measure, in the invariant with the
    condition false. *)
Lemma while_invariant {S} (I : S -> Prop) (mu : S -> nat) cond (body : S -> C S) :
  (forall s, I s -> cond s = true ->
     exists s', run (body s) = Ok s' /\ I s' /\ (mu s' < mu s)%nat) ->
  forall fuel s, I s -> (mu s <= fuel)%nat ->
  exists s', run (while fuel cond body s) = Ok s' /\ I s' /\ cond s' = false.
Proof.
  intros Hstep fuel. induction fuel as [|fuel IH]; intros s Hs Hmu.
  - destruct (cond s) eqn:Hc.
    + destruct (Hstep s Hs Hc) as (s' & _ & _ & Hlt). lia.
    + exists s. simpl. rewrite Hc. done.
  - destruct (cond s) eqn:Hc.
    + destruct (Hstep s Hs Hc) as (s' & Hb & Hs' & Hlt).
      destruct (IH s' Hs' ltac:(lia)) as (s'' & Hw & Hs'' & Hc'').
      exists s''. simpl. rewrite Hc, (run_cbind_ok _ _ _ Hb). done.
    + exists s. simpl. rewrite Hc. done.
Qed.

Section Alignment.

Context {E : Type}.
Variable DeepEqual : E -> E -> bool.
Variables l r : list E.

(** [left[p.Left]] and [right[p.Right]] exist and are deeply equal. *)
Definition matched (p : IndexPair) : Prop :=
  exists a b,
    0 <= Left p /\ 0 <= Right p /\
    l !! Z.to_nat (Left p) = Some a /\ r !! Z.to_nat (Right p) = Some b /\
    DeepEqual a b = true.

(** Matched pairs, strictly increasing in both coordinates, the first one
    at or after [(x, y)]. *)
Fixpoint chain_from (x y : Z) (ps : list IndexPair) : Prop :=
  match ps with
  | [] => True
  | p :: ps' =>
    x <= Left p /\ y <= Right p /\ matched p /\
    chain_from (Left p + 1) (Right p + 1) ps'
  end.

Lemma chain_from_weaken x y x' y' ps :
  x' <= x -> y' <= y -> chain_from x y ps -> chain_from x' y' ps.
Proof.
  intros Hx Hy. destruct ps as [|p ps]; [done|].
  simpl. intros (? & ? & ? & ?). repeat split; try lia; done.
Qed.

Lemma chain_from_matched x y ps p : chain_from x y ps -> p ∈ ps -> matched p.
Proof.
  revert x y. induction ps as [|q ps IH]; intros x y Hc Hp.
  - by apply not_elem_of_nil in Hp.
  - destruct Hc as (_ & _ & Hq & Hc). apply elem_of_cons in Hp as [->|Hp]; [done|].
    eapply IH; eassumption.
Qed.

Lemma chain_from_next x y ps (i : nat) p q :
  chain_from x y ps -> ps !! i = Some p -> ps !! S i = Some q ->
  Left p < Left q /\ Right p < Right q.
Proof.
  revert x y i. induction ps as [|a ps IH]; intros x y i Hc Hp Hq; [done|].
  destruct Hc as (_ & _ & _ & Hc). destruct i as [|i].
  - simpl in Hp. injection Hp as ->. destruct ps as [|b ps]; [done|].
    simpl in Hq. injection Hq as ->. destruct Hc as (? & ? & _). lia.
  - simpl in Hp, Hq. eapply IH; eassumption.
Qed.

Let m := length l.
Let n := length r.
Let T := lcsT DeepEqual l r.
Let t := mkTable (S m) (S n) T.

(** The invariant of the backtracking loop: the slots of [pairs] from
    [table[x][y]] on hold a chain that starts at or after [(x, y)]. *)
Definition walk_inv (w : walk) : Prop :=
  exists x y : nat,
    wx w = Z.of_nat x /\ wy w = Z.of_nat y /\ (x <= m)%nat /\ (y <= n)%nat /\
    length (wpairs w) = Z.to_nat (T m n) /\
    chain_from (Z.of_nat x) (Z.of_nat y) (drop (Z.to_nat (T x y)) (wpairs w)).

Definition walk_measure (w : walk) : nat := Z.to_nat (wx w + wy w).

Lemma walk_step w :
  walk_inv w -> IndexPairsContext_cond w = true ->
  exists w', run (IndexPairsContext_step DeepEqual l r t w) = Ok w' /\
    walk_inv w' /\ (walk_measure w' < walk_measure w)%nat.
Proof.
  intros (x & y & Hx & Hy & Hxm & Hyn & Hlen & Hch) Hcond.
  unfold IndexPairsContext_cond in Hcond. apply andb_true_iff in Hcond as [Hx0 Hy0].
  apply bool_decide_eq_true in Hx0, Hy0. rewrite Hx in Hx0. rewrite Hy in Hy0.
  destruct x as [|x]; [lia|]. destruct y as [|y]; [lia|].
  destruct (lookup_lt_is_Some_2 l x ltac:(fold m; lia)) as [a Ha].
  destruct (lookup_lt_is_Some_2 r y ltac:(fold n; lia)) as [b Hb].
  unfold IndexPairsContext_step, walk_measure. rewrite Hx, Hy.
  replace (Z.of_nat (S x) - 1) with (Z.of_nat x) by lia.
  replace (Z.of_nat (S y) - 1) with (Z.of_nat y) by lia.
  rewrite (run_cbind_ok _ _ _ (run_index l x a Ha)).
  rewrite (run_cbind_ok _ _ _ (run_index r y b Hb)).
  rewrite (run_cbind_ok _ _ _ (run_tick _)).
  pose proof (lcsT_bounds DeepEqual l r x y) as Hb0.
  pose proof (lcsT_mono DeepEqual l r (S x) (S y) m n ltac:(lia) ltac:(lia)) as Hmn.
  fold T in Hb0, Hmn.
  destruct (DeepEqual a b) eqn:Heq.
  - assert (HT : T (S x) (S y) = T x y + 1).
    { apply lcsT_match. unfold inc. rewrite Ha, Hb, Heq. reflexivity. }
    unfold t.
    rewrite (run_cbind_ok _ _ _
               (run_index2_mkTable (S m) (S n) T (S x) (S y) ltac:(lia) ltac:(lia))).
    replace (T (S x) (S y) - 1) with (Z.of_nat (Z.to_nat (T x y))) by lia.
    assert (Hlt : (Z.to_nat (T x y) < length (wpairs w))%nat) by lia.
    rewrite (run_cbind_ok _ _ _ (run_store (wpairs w) _ _ Hlt)).
    eexists. split; [reflexivity|]. simpl. split; [|lia].
    exists x, y. simpl. rewrite length_insert.
    split; [done|]. split; [done|]. split; [lia|]. split; [lia|]. split; [done|].
    rewrite drop_insert_here by lia. simpl.
    split; [lia|]. split; [lia|]. split.
    + exists a, b. simpl. rewrite !Nat2Z.id. repeat split; (lia || done).
    + replace (S (Z.to_nat (T x y))) with (Z.to_nat (T (S x) (S y))) by lia.
      replace (Z.of_nat x + 1) with (Z.of_nat (S x)) by lia.
      replace (Z.of_nat y + 1) with (Z.of_nat (S y)) by lia. exact Hch.
  - assert (HT : T (S x) (S y) = Z.max (T x (S y)) (T (S x) y)).
    { apply lcsT_mismatch. unfold inc. rewrite Ha, Hb, Heq. reflexivity. }
    unfold t.
    rewrite (run_cbind_ok _ _ _
               (run_index2_mkTable (S m) (S n) T x (S y) ltac:(lia) ltac:(lia))).
    rewrite (run_cbind_ok _ _ _
               (run_index2_mkTable (S m) (S n) T (S x) y ltac:(lia) ltac:(lia))).
    case_bool_decide as Hge.
    + eexists. split; [reflexivity|]. simpl. split; [|lia].
      exists x, (S y). simpl.
      split; [done|]. split; [done|]. split; [lia|]. split; [lia|]. split; [done|].
      replace (T x (S y)) with (T (S x) (S y)) by lia.
      eapply chain_from_weaken; [| |exact Hch]; lia.
    + eexists. split; [reflexivity|]. simpl. split; [|lia].
      exists (S x), y. simpl.
      split; [done|]. split; [done|]. split; [lia|]. split; [lia|]. split; [done|].
      replace (T (S x) y) with (T (S x) (S y)) by lia.
      eapply chain_from_weaken; [| |exact Hch]; lia.
Qed.

(** Lines 128-142 on the table of the recurrence: the loop ends within its
    budget, leaving a chain of [table[m][n]] pairs. *)
Lemma run_pairs :
  exists ps, run (IndexPairsContext_build DeepEqual l r t) = Ok ps /\
    length ps = Z.to_nat (T m n) /\ chain_from 0 0 ps.
Proof.
  pose proof (lcsT_bounds DeepEqual l r m n) as Hb0. fold T in Hb0.
  destruct (while_invariant walk_inv walk_measure IndexPairsContext_cond
              (IndexPairsContext_step DeepEqual l r t) walk_step
              (Z.to_nat (len l + len r))
              {| wx := len l; wy := len r;
                 wpairs := replicate (Z.to_nat (T m n)) {| Left := 0; Right := 0 |} |})
    as (w & Hw & (x & y & Hx & Hy & Hxm & Hyn & Hlen & Hch) & Hcond).
  - exists m, n. simpl. rewrite length_replicate.
    repeat split; try done.
    rewrite drop_ge by (rewrite length_replicate; lia). done.
  - unfold walk_measure. simpl. lia.
  - exists (wpairs w). split; [|split; [exact Hlen|]].
    + unfold IndexPairsContext_build.
      rewrite (run_cbind_ok _ _ (T 0%nat <$> seq 0 (S n)))
        by (apply (run_index t 0), mkTable_lookup; lia).
      replace (len t - 1) with (Z.of_nat m)
        by (unfold len, t; rewrite length_mkTable; lia).
      replace (len (T 0%nat <$> seq 0 (S n)) - 1) with (Z.of_nat n)
        by (unfold len; rewrite length_fmap, length_seq; lia).
      unfold t at 1.
      rewrite (run_cbind_ok _ _ _
                 (run_index2_mkTable (S m) (S n) T m n ltac:(lia) ltac:(lia))).
      rewrite (run_cbind_ok _ _ _ (run_make_Z _ (T m n) ltac:(lia))).
      rewrite (run_cbind_ok _ _ _ Hw). reflexivity.
    + unfold IndexPairsContext_cond in Hcond. rewrite Hx, Hy in Hcond.
      assert (HT : T x y = 0).
      { apply andb_false_iff in Hcond as [H|H]; apply bool_decide_eq_false in H.
        - replace x with O by lia. apply lcsT_0_l.
        - replace y with O by lia. apply lcsT_0_r. }
      rewrite HT in Hch. simpl in Hch.
      eapply chain_from_weaken; [| |exact Hch]; lia.
Qed.

End Alignment.

(** ** Projection onto the left input *)

Section Projection.

Context {E : Type}.
Variable zeroE : E.
Variable l : list E.

Lemma run_values_loop (ps : list IndexPair) (i : nat) (vs : list E) :
  length vs = (i + length ps)%nat ->
  (forall p, p ∈ ps -> 0 <= Left p /\ is_Some (l !! Z.to_nat (Left p))) ->
  exists vs', run (for_each ps (Z.of_nat i) (ValuesContext_step l) vs) = Ok vs' /\
    length vs' = length vs /\
    (forall j, (j < i)%nat -> vs' !! j = vs !! j) /\
    (forall j p, ps !! j = Some p -> vs' !! (i + j)%nat = l !! Z.to_nat (Left p)).
Proof.
  revert i vs. induction ps as [|p ps IH]; intros i vs Hlen Hps.
  - exists vs. repeat split; done.
  - destruct (Hps p ltac:(left)) as [Hp [a Ha]].
    destruct (IH (S i) (<[i := a]> vs)) as (vs' & Hrun & Hlen' & Hlow & Hhigh).
    { rewrite length_insert. simpl in Hlen. lia. }
    { intros q Hq. apply Hps. by right. }
    exists vs'. split; [|split; [|split]].
    + cbn [for_each]. unfold ValuesContext_step at 1.
      rewrite run_cbind, run_cbind, (run_index_Z _ _ _ Hp Ha).
      rewrite run_store by (simpl in Hlen; lia).
      replace (Z.of_nat i + 1) with (Z.of_nat (S i)) by lia. exact Hrun.
    + rewrite Hlen', length_insert. reflexivity.
    + intros j Hj. rewrite Hlow by lia. apply list_lookup_insert_ne. lia.
    + intros [|j] q Hq.
      * simpl in Hq. injection Hq as <-. rewrite Nat.add_0_r, Hlow by lia.
        rewrite list_lookup_insert_eq by (simpl in Hlen; lia). by rewrite Ha.
      * simpl in Hq. rewrite <- (Hhigh j q Hq). f_equal. lia.
Qed.

(** Lines 166-169 on pairs whose left indices are in range. *)
Lemma run_values (ps : list IndexPair) :
  (forall p, p ∈ ps -> 0 <= Left p /\ is_Some (l !! Z.to_nat (Left p))) ->
  exists vs, run (ValuesContext_build zeroE l ps) = Ok vs /\
    length vs = length ps /\
    (forall j p, ps !! j = Some p -> vs !! j = l !! Z.to_nat (Left p)).
Proof.
  intros Hps.
  destruct (run_values_loop ps 0 (replicate (length ps) zeroE)) as (vs & Hrun & Hlen & _ & Hv).
  { rewrite length_replicate. reflexivity. }
  { exact Hps. }
  exists vs. split; [|split].
  - unfold ValuesContext_build, len.
    rewrite (run_cbind_ok _ _ _ (run_make _ _)). exact Hrun.
  - rewrite Hlen, length_replicate. reflexivity.
  - exact Hv.
Qed.

End Projection.

(** ** The reference definition of the LCS length *)

Section Reference.

Context {E : Type}.
Variable DeepEqual : E -> E -> bool.

(** [sa] is a subsequence of [a], [sb] one of [b], and the two agree
    element by element under the predicate: a common subsequence. *)
Definition CommonSubseq (a b sa sb : list E) : Prop :=
  sa `sublist_of` a /\ sb `sublist_of` b /\
  Forall2 (fun u v => DeepEqual u v = true) sa sb.

(** [k] is the largest length of a common subsequence of [a] and [b]. *)
Definition LcsLength (a b : list E) (k : Z) : Prop :=
  (exists sa sb, CommonSubseq a b sa sb /\ len sa = k) /\
  (forall sa sb, CommonSubseq a b sa sb -> len sa <= k).

Variables l r : list E.

Let T := lcsT DeepEqual l r.

Lemma sublist_singleton_inv (s : list E) (a : E) :
  s `sublist_of` [a] -> s = [] \/ s = [a].
Proof.
  intros [H|(s' & -> & H)]%sublist_cons_r.
  - left. by apply sublist_nil_r.
  - right. apply sublist_nil_r in H as ->. reflexivity.
Qed.

Lemma lcsT_upper (x y : nat) (sa sb : list E) :
  (x <= length l)%nat -> (y <= length r)%nat ->
  CommonSubseq (take x l) (take y r) sa sb -> len sa <= T x y.
Proof.
  revert y sa sb. induction x as [|x IHx]; intros y sa sb Hx Hy (Ha & Hb & Hf).
  { rewrite take_0 in Ha. apply sublist_nil_r in Ha as ->.
    unfold T. rewrite lcsT_0_l. done. }
  revert sa sb Ha Hb Hf. induction y as [|y IHy]; intros sa sb Ha Hb Hf.
  { rewrite take_0 in Hb. apply sublist_nil_r in Hb as ->.
    apply Forall2_nil_inv_r in Hf as ->. unfold T. rewrite lcsT_0_r. done. }
  destruct (lookup_lt_is_Some_2 l x ltac:(lia)) as [a Hla].
  destruct (lookup_lt_is_Some_2 r y ltac:(lia)) as [b Hrb].
  pose proof (lcsT_mono_l DeepEqual l r x (S y)) as Hm1.
  pose proof (lcsT_mono_r DeepEqual l r (S x) y) as Hm2. fold T in Hm1, Hm2.
  pose proof Ha as Ha'. rewrite (take_S_r _ _ _ Hla) in Ha'.
  apply sublist_app_r in Ha' as (s1 & s2 & -> & Hs1 & Hs2).
  apply sublist_singleton_inv in Hs2 as [->| ->].
  { rewrite app_nil_r in *.
    specialize (IHx (S y) s1 sb ltac:(lia) Hy (conj Hs1 (conj Hb Hf))). lia. }
  pose proof Hb as Hb'. rewrite (take_S_r _ _ _ Hrb) in Hb'.
  apply sublist_app_r in Hb' as (t1 & t2 & -> & Ht1 & Ht2).
  apply sublist_singleton_inv in Ht2 as [->| ->].
  { rewrite app_nil_r in *.
    specialize (IHy ltac:(lia) (s1 ++ [a]) t1 Ha Ht1 Hf). lia. }
  pose proof (Forall2_length _ _ _ Hf) as Hlen. rewrite !length_app in Hlen. simpl in Hlen.
  apply Forall2_app_inv in Hf as [Hf1 Hf2]; [|lia].
  apply Forall2_cons_1 in Hf2 as [Hab _].
  specialize (IHx y s1 t1 ltac:(lia) ltac:(lia) (conj Hs1 (conj Ht1 Hf1))).
  assert (HT : T (S x) (S y) = T x y + 1).
  { apply lcsT_match. unfold inc. rewrite Hla, Hrb, Hab. reflexivity. }
  unfold len in *. rewrite length_app. simpl. lia.
Qed.

Lemma lcsT_lower (x y : nat) :
  (x <= length l)%nat -> (y <= length r)%nat ->
  exists sa sb, CommonSubseq (take x l) (take y r) sa sb /\ len sa = T x y.
Proof.
  revert y. induction x as [|x IHx]; intros y Hx Hy.
  { exists [], []. unfold T. rewrite lcsT_0_l. repeat split; try done.
    apply sublist_nil_l. }
  induction y as [|y IHy].
  { exists [], []. unfold T. rewrite lcsT_0_r. repeat split; try done.
    apply sublist_nil_l. }
  destruct (lookup_lt_is_Some_2 l x ltac:(lia)) as [a Hla].
  destruct (lookup_lt_is_Some_2 r y ltac:(lia)) as [b Hrb].
  destruct (DeepEqual a b) eqn:Hab.
  - destruct (IHx y ltac:(lia) ltac:(lia)) as (s1 & t1 & (Hs & Ht & Hf) & Hlen).
    exists (s1 ++ [a]), (t1 ++ [b]). split; [split; [|split]|].
    + rewrite (take_S_r _ _ _ Hla). by apply sublist_app.
    + rewrite (take_S_r _ _ _ Hrb). by apply sublist_app.
    + apply Forall2_app; [done|]. by constructor.
    + assert (HT : T (S x) (S y) = T x y + 1).
      { apply lcsT_match. unfold inc. rewrite Hla, Hrb, Hab. reflexivity. }
      unfold len in *. rewrite length_app. simpl. lia.
  - assert (HT : T (S x) (S y) = Z.max (T x (S y)) (T (S x) y)).
    { apply lcsT_mismatch. unfold inc. rewrite Hla, Hrb, Hab. reflexivity. }
    destruct (Z.max_spec (T x (S y)) (T (S x) y)) as [[_ Hmax]|[_ Hmax]].
    + destruct (IHy ltac:(lia)) as (sa & sb & (Hs & Ht & Hf) & Hlen).
      exists sa, sb. split; [split; [|split]|]; [done| |done|lia].
      rewrite (take_S_r _ _ _ Hrb). by apply sublist_inserts_r.
    + destruct (IHx (S y) ltac:(lia) ltac:(lia)) as (sa & sb & (Hs & Ht & Hf) & Hlen).
      exists sa, sb. split; [split; [|split]|]; [|done|done|lia].
      rewrite (take_S_r _ _ _ Hla). by apply sublist_inserts_r.
Qed.

(** The last entry of the recurrence is the LCS length of the inputs. *)
Lemma lcsT_LcsLength : LcsLength l r (T (length l) (length r)).
Proof.
  split.
  - destruct (lcsT_lower (length l) (length r)) as (sa & sb & H & Hlen); [done..|].
    rewrite !take_ge in H by done. by exists sa, sb.
  - intros sa sb H. apply (lcsT_upper _ _ sa sb); [done..|]. by rewrite !take_ge.
Qed.

End Reference.

(** A sequence against itself, when each of its elements is deeply equal
    to itself. *)
Lemma lcsT_diag {E} (DeepEqual : E -> E -> bool) (a : list E) (x : nat) :
  (forall u, u ∈ a -> DeepEqual u u = true) ->
  (x <= length a)%nat -> lcsT DeepEqual a a x x = Z.of_nat x.
Proof.
  intros Hrefl. induction x as [|x IH]; intros Hx; [apply lcsT_0_l|].
  destruct (lookup_lt_is_Some_2 a x ltac:(lia)) as [u Hu].
  assert (Hi : inc DeepEqual a a x x = 1).
  { unfold inc. rewrite Hu, Hrefl; [reflexivity|].
    eapply list_elem_of_lookup_2, Hu. }
  rewrite (lcsT_match _ _ _ _ _ Hi), IH by lia. lia.
Qed.

(** ** Sessions *)

(** The calls a client can make on a session. *)
Inductive call : Type :=
| CallTable
| CallTableContext (ctx : Context)
| CallLength
| CallLengthContext (ctx : Context)
| CallIndexPairs
| CallIndexPairsContext (ctx : Context)
| CallValues
| CallValuesContext (ctx : Context).

Section Session.

Context {E : Type}.
Variable DeepEqual : E -> E -> bool.
Variable zeroE : E.

(** The session a call leaves behind. *)
Definition session_after (c : call) (s : lcs) : lcs :=
  match c with
  | CallTable => sess (Table DeepEqual s)
  | CallTableContext ctx => sess (TableContext DeepEqual ctx s)
  | CallLength => sess (Length DeepEqual s)
  | CallLengthContext ctx => sess (LengthContext DeepEqual ctx s)
  | CallIndexPairs => sess (IndexPairs DeepEqual s)
  | CallIndexPairsContext ctx => sess (IndexPairsContext DeepEqual ctx s)
  | CallValues => sess (Values DeepEqual zeroE s)
  | CallValuesContext ctx => sess (ValuesContext DeepEqual zeroE ctx s)
  end.

(** The session after a sequence of calls, the first call first. *)
Definition after (cs : list call) (s : lcs) : lcs :=
  foldl (fun s c => session_after c s) s cs.

Variables l r : list E.

Let m := length l.
Let n := length r.

(** The three results as functions of the inputs. *)
Definition tableOf : list (list Z) := mkTable (S m) (S n) (lcsT DeepEqual l r).

Definition lengthOf : Z := lcsT DeepEqual l r m n.

Definition pairsOf : list IndexPair :=
  match run (IndexPairsContext_build DeepEqual l r tableOf) with
  | Ok ps => ps
  | _ => []
  end.

Definition valuesOf : list E :=
  match run (ValuesContext_build zeroE l pairsOf) with
  | Ok vs => vs
  | _ => []
  end.

Lemma pairsOf_spec :
  run (IndexPairsContext_build DeepEqual l r tableOf) = Ok pairsOf /\
  length pairsOf = Z.to_nat lengthOf /\
  chain_from DeepEqual l r 0 0 pairsOf.
Proof.
  destruct (run_pairs DeepEqual l r) as (ps & Hrun & Hlen & Hch).
  unfold pairsOf, tableOf, lengthOf, m, n. rewrite Hrun. done.
Qed.

Lemma pairsOf_in_range p :
  p ∈ pairsOf -> 0 <= Left p /\ is_Some (l !! Z.to_nat (Left p)).
Proof.
  intros Hp. destruct pairsOf_spec as (_ & _ & Hch).
  destruct (chain_from_matched _ _ _ _ _ _ _ Hch Hp) as (a & b & H0 & _ & Ha & _).
  split; [done|]. by exists a.
Qed.

Lemma valuesOf_spec :
  run (ValuesContext_build zeroE l pairsOf) = Ok valuesOf /\
  length valuesOf = length pairsOf /\
  (forall j p, pairsOf !! j = Some p -> valuesOf !! j = l !! Z.to_nat (Left p)).
Proof.
  destruct (run_values zeroE l pairsOf pairsOf_in_range) as (vs & Hrun & Hlen & Hv).
  unfold valuesOf. rewrite Hrun. done.
Qed.

(** A session on [l] and [r] with the given cache fields filled. *)
Definition cached (bt bp bv : bool) : lcs :=
  {| left := l; right := r;
     table := if bt then Some tableOf else None;
     indexPairs := if bp then Some pairsOf else None;
     values := if bv then Some valuesOf else None |}.

(** No poll of a table construction finds the context done. *)
Definition passes (ctx : Context) : bool :=
  match first_done ctx 0 n with
  | Some _ => false
  | None => true
  end.

(** The outcome of a call that needs the table: the value if the table is
    cached or can be built, else the error of the context. *)
Definition via_table {A} (ctx : Context) (bt : bool) (a : A) : outcome A :=
  if bt then Ok a
  else match first_done ctx 0 n with
       | Some e => Err e
       | None => Ok a
       end.

Lemma New_cached : New l r = cached false false false.
Proof. reflexivity. Qed.

Lemma TableContext_cached ctx bt bp bv :
  exists w, TableContext DeepEqual ctx (cached bt bp bv)
    = mkResult (via_table ctx bt tableOf) (cached (bt || passes ctx) bp bv) w.
Proof.
  destruct bt; [by exists O|].
  unfold TableContext. cbn [table left right cached].
  pose proof (run_build DeepEqual l r ctx) as Hrun. unfold run in Hrun.
  destruct (TableContext_build DeepEqual ctx l r) as [o w]. simpl in Hrun. subst o.
  exists w. unfold via_table, passes. fold n. fold m.
  destruct (first_done ctx 0 n); reflexivity.
Qed.

Lemma run_index2_tableOf :
  run (index2 tableOf (len l) (len r)) = Ok lengthOf.
Proof. apply run_index2_mkTable; lia. Qed.

Lemma LengthContext_cached ctx bt bp bv :
  exists w, LengthContext DeepEqual ctx (cached bt bp bv)
    = mkResult (via_table ctx bt lengthOf) (cached (bt || passes ctx) bp bv) w.
Proof.
  destruct (TableContext_cached ctx bt bp bv) as [w Hw].
  unfold LengthContext. rewrite Hw. cbn [out sess work left right cached].
  pose proof run_index2_tableOf as Hi. unfold run in Hi.
  unfold via_table. destruct bt.
  - destruct (index2 tableOf (len l) (len r)) as [o k]. simpl in Hi. subst o. by eexists.
  - destruct (first_done ctx 0 n); [by eexists|].
    destruct (index2 tableOf (len l) (len r)) as [o k]. simpl in Hi. subst o. by eexists.
Qed.

Lemma IndexPairsContext_cached ctx bt bp bv :
  exists w, IndexPairsContext DeepEqual ctx (cached bt bp bv)
    = mkResult (if bp then Ok pairsOf else via_table ctx bt pairsOf)
        (if bp then cached bt bp bv
         else cached (bt || passes ctx) (bt || passes ctx) bv) w.
Proof.
  destruct bp; [by exists O|].
  destruct (TableContext_cached ctx bt false bv) as [w Hw].
  unfold IndexPairsContext. cbn [indexPairs left right cached]. rewrite Hw.
  cbn [out sess work].
  destruct pairsOf_spec as (Hp & _). unfold run in Hp.
  unfold via_table, passes in *. destruct bt.
  - destruct (IndexPairsContext_build DeepEqual l r tableOf) as [o k].
    simpl in Hp. subst o. by eexists.
  - destruct (first_done ctx 0 n); [by eexists|].
    destruct (IndexPairsContext_build DeepEqual l r tableOf) as [o k].
    simpl in Hp. subst o. by eexists.
Qed.

Lemma ValuesContext_cached ctx bt bp bv :
  exists w, ValuesContext DeepEqual zeroE ctx (cached bt bp bv)
    = mkResult (if bv || bp then Ok valuesOf else via_table ctx bt valuesOf)
        (if bv then cached bt bp bv
         else if bp then cached bt bp true
         else cached (bt || passes ctx) (bt || passes ctx) (bt || passes ctx)) w.
Proof.
  destruct bv; [by exists O|].
  destruct (IndexPairsContext_cached ctx bt bp false) as [w Hw].
  unfold ValuesContext. cbn [values left right cached]. rewrite Hw.
  cbn [out sess work].
  destruct valuesOf_spec as (Hv & _). unfold run in Hv.
  unfold via_table, passes in *. destruct bp; [|destruct bt].
  - destruct (ValuesContext_build zeroE l pairsOf) as [o k].
    simpl in Hv. subst o. by eexists.
  - destruct (ValuesContext_build zeroE l pairsOf) as [o k].
    simpl in Hv. subst o. by eexists.
  - destruct (first_done ctx 0 n); [by eexists|].
    destruct (ValuesContext_build zeroE l pairsOf) as [o k].
    simpl in Hv. subst o. by eexists.
Qed.

Lemma passes_never ctx : NeverDone ctx -> passes ctx = true.
Proof. intros H. unfold passes. by rewrite first_done_never. Qed.

Lemma via_table_never {A} ctx bt (a : A) : NeverDone ctx -> via_table ctx bt a = Ok a.
Proof. intros H. unfold via_table. rewrite first_done_never by done. by destruct bt. Qed.

Lemma Background_never : NeverDone Background.
Proof. intros k. reflexivity. Qed.

(** Every call leaves a session of the same shape, and never empties a
    cache field. *)
Lemma session_after_cached c bt bp bv :
  exists bt' bp' bv', session_after c (cached bt bp bv) = cached bt' bp' bv' /\
    (bt = true -> bt' = true) /\ (bp = true -> bp' = true) /\ (bv = true -> bv' = true).
Proof.
  assert (Hor : forall b c : bool, b = true -> b || c = true) by (by intros [] ?).
  destruct c as [|ctx| |ctx| |ctx| |ctx]; cbn [session_after];
    unfold Table, Length, IndexPairs, Values, drop_error; cbn [sess].
  - destruct (TableContext_cached Background bt bp bv) as [w ->].
    eexists _, _, _. split; [reflexivity|]. auto.
  - destruct (TableContext_cached ctx bt bp bv) as [w ->].
    eexists _, _, _. split; [reflexivity|]. auto.
  - destruct (LengthContext_cached Background bt bp bv) as [w ->].
    eexists _, _, _. split; [reflexivity|]. auto.
  - destruct (LengthContext_cached ctx bt bp bv) as [w ->].
    eexists _, _, _. split; [reflexivity|]. auto.
  - destruct (IndexPairsContext_cached Background bt bp bv) as [w ->].
    cbn [sess]. destruct bp; eexists _, _, _; (split; [reflexivity|]); auto.
    repeat split; auto; discriminate.
  - destruct (IndexPairsContext_cached ctx bt bp bv) as [w ->].
    cbn [sess]. destruct bp; eexists _, _, _; (split; [reflexivity|]); auto.
    repeat split; auto; discriminate.
  - destruct (ValuesContext_cached Background bt bp bv) as [w ->].
    cbn [sess]. destruct bv, bp; eexists _, _, _; (split; [reflexivity|]); auto;
      repeat split; auto; discriminate.
  - destruct (ValuesContext_cached ctx bt bp bv) as [w ->].
    cbn [sess]. destruct bv, bp; eexists _, _, _; (split; [reflexivity|]); auto;
      repeat split; auto; discriminate.
Qed.

Lemma after_cached cs bt bp bv :
  exists bt' bp' bv', after cs (cached bt bp bv) = cached bt' bp' bv' /\
    (bt = true -> bt' = true) /\ (bp = true -> bp' = true) /\ (bv = true -> bv' = true).
Proof.
  revert bt bp bv. induction cs as [|c cs IH]; intros bt bp bv.
  - by exists bt, bp, bv.
  - unfold after. cbn [foldl].
    destruct (session_after_cached c bt bp bv) as (bt1 & bp1 & bv1 & -> & Ht & Hp & Hv).
    destruct (IH bt1 bp1 bv1) as (bt2 & bp2 & bv2 & Heq & Ht' & Hp' & Hv').
    exists bt2, bp2, bv2. split; [exact Heq|]. auto.
Qed.

(** Every session a client can hold: [New] followed by calls. *)
Lemma reachable_cached cs :
  exists bt bp bv, after cs (New l r) = cached bt bp bv.
Proof.
  rewrite New_cached.
  destruct (after_cached cs false false false) as (bt & bp & bv & H & _).
  by exists bt, bp, bv.
Qed.

Lemma first_done_Some ctx k j e :
  first_done ctx k j = Some e -> exists i, ctx i = Some e.
Proof.
  revert k. induction j as [|j IH]; intros k; simpl; [discriminate|].
  destruct (ctx k) as [e'|] eqn:Hk.
  - intros [= ->]. by exists k.
  - apply IH.
Qed.

Lemma run_index2_tableOf_Z (x y : Z) :
  0 <= x <= len l -> 0 <= y <= len r ->
  run (index2 tableOf x y) = Ok (lcsT DeepEqual l r (Z.to_nat x) (Z.to_nat y)).
Proof.
  intros Hx Hy. rewrite <- (Z2Nat.id x) at 1 by lia. rewrite <- (Z2Nat.id y) at 1 by lia.
  apply run_index2_mkTable; unfold len, m, n in *; lia.
Qed.

End Session.

(** ** The properties of the library *)

Section Properties.

Context {E : Type}.
Variable DeepEqual : E -> E -> bool.
Variable zeroE : E.

Local Abbreviation after' := (after DeepEqual zeroE).

(** C1. On every session of inputs [l] and [r], [Length], and
    [LengthContext] under a context that is never done, return the length
    of a longest common subsequence of [l] and [r]: the largest length of
    a pair of subsequences of [l] and of [r] that agree element by element
    under the equality predicate. *)
Theorem Length_is_lcs_length (l r : list E) (cs : list call) (ctx : Context) :
  NeverDone ctx ->
  exists k,
    out (Length DeepEqual (after' cs (New l r))) = Ok k /\
    out (LengthContext DeepEqual ctx (after' cs (New l r))) = Ok k /\
    LcsLength DeepEqual l r k.
Proof.
  intros Hctx.
  destruct (reachable_cached DeepEqual zeroE l r cs) as (bt & bp & bv & ->).
  exists (lengthOf DeepEqual l r). split; [|split].
  - unfold Length, drop_error.
    destruct (LengthContext_cached DeepEqual zeroE l r Background bt bp bv) as [w ->].
    cbn [out]. by rewrite via_table_never by apply Background_never.
  - destruct (LengthContext_cached DeepEqual zeroE l r ctx bt bp bv) as [w ->].
    cbn [out]. by rewrite via_table_never.
  - apply lcsT_LcsLength.
Qed.

(** C2. Under a context that is never done, the table [TableContext]
    returns has [len(left)+1] rows of [len(right)+1] entries, zeros in row
    0 and in column 0, and for [1 <= x <= len(left)], [1 <= y <= len(right)]
    the entry [[x][y]] is [[x-1][y-1] + 1] when [left[x-1]] and
    [right[y-1]] are deeply equal and the larger of [[x-1][y]] and
    [[x][y-1]] otherwise. *)
Theorem TableContext_recurrence (l r : list E) (cs : list call) (ctx : Context) :
  NeverDone ctx ->
  exists t,
    out (TableContext DeepEqual ctx (after' cs (New l r))) = Ok t /\
    len t = len l + 1 /\
    (forall row, row ∈ t -> len row = len r + 1) /\
    (forall y, 0 <= y <= len r -> run (index2 t 0 y) = Ok 0) /\
    (forall x, 0 <= x <= len l -> run (index2 t x 0) = Ok 0) /\
    (forall x y, 1 <= x <= len l -> 1 <= y <= len r ->
       exists a b d u w,
         run (index l (x - 1)) = Ok a /\ run (index r (y - 1)) = Ok b /\
         run (index2 t (x - 1) (y - 1)) = Ok d /\
         run (index2 t (x - 1) y) = Ok u /\
         run (index2 t x (y - 1)) = Ok w /\
         run (index2 t x y) = Ok (if DeepEqual a b then d + 1 else Z.max u w)).
Proof.
  intros Hctx.
  destruct (reachable_cached DeepEqual zeroE l r cs) as (bt & bp & bv & ->).
  exists (tableOf DeepEqual l r).
  destruct (TableContext_cached DeepEqual zeroE l r ctx bt bp bv) as [w0 ->].
  cbn [out]. rewrite via_table_never by done.
  split; [done|]. split; [|split; [|split; [|split]]].
  - unfold len, tableOf. rewrite length_mkTable. lia.
  - intros row Hrow. unfold len. rewrite (mkTable_row _ _ _ _ Hrow). lia.
  - intros y Hy. rewrite run_index2_tableOf_Z by (pose proof (len_nonneg l); lia).
    by rewrite lcsT_0_l.
  - intros x Hx. rewrite run_index2_tableOf_Z by (pose proof (len_nonneg r); lia).
    by rewrite lcsT_0_r.
  - intros x y Hx Hy.
    destruct (lookup_lt_is_Some_2 l (Z.to_nat (x - 1)) ltac:(unfold len in *; lia)) as [a Ha].
    destruct (lookup_lt_is_Some_2 r (Z.to_nat (y - 1)) ltac:(unfold len in *; lia)) as [b Hb].
    exists a, b.
    exists (lcsT DeepEqual l r (Z.to_nat (x - 1)) (Z.to_nat (y - 1))),
      (lcsT DeepEqual l r (Z.to_nat (x - 1)) (Z.to_nat y)),
      (lcsT DeepEqual l r (Z.to_nat x) (Z.to_nat (y - 1))).
    rewrite (run_index2_tableOf_Z DeepEqual l r (x - 1) (y - 1)) by lia.
    rewrite (run_index2_tableOf_Z DeepEqual l r (x - 1) y) by lia.
    rewrite (run_index2_tableOf_Z DeepEqual l r x (y - 1)) by lia.
    rewrite (run_index2_tableOf_Z DeepEqual l r x y) by lia.
    rewrite (run_index_Z l (x - 1) a ltac:(lia) Ha).
    rewrite (run_index_Z r (y - 1) b ltac:(lia) Hb).
    do 5 (split; [reflexivity|]). f_equal.
    replace (Z.to_nat x) with (S (Z.to_nat (x - 1))) by lia.
    replace (Z.to_nat y) with (S (Z.to_nat (y - 1))) by lia.
    destruct (DeepEqual a b) eqn:Hab.
    + apply lcsT_match. unfold inc. by rewrite Ha, Hb, Hab.
    + apply lcsT_mismatch. unfold inc. by rewrite Ha, Hb, Hab.
Qed.

(** C3. On every session, the list [IndexPairs] returns, and
    [IndexPairsContext] under a context that is never done, is strictly
    increasing in [Left] and in [Right] from each pair to the next, and
    every pair [(i, j)] in it has [left[i]] deeply equal to [right[j]]. *)
Theorem IndexPairs_increasing_matched (l r : list E) (cs : list call) (ctx : Context) :
  NeverDone ctx ->
  exists ps,
    out (IndexPairs DeepEqual (after' cs (New l r))) = Ok (Some ps) /\
    out (IndexPairsContext DeepEqual ctx (after' cs (New l r))) = Ok ps /\
    (forall (i : nat) p q, ps !! i = Some p -> ps !! S i = Some q ->
       Left p < Left q /\ Right p < Right q) /\
    (forall p, p ∈ ps ->
       exists a b, run (index l (Left p)) = Ok a /\ run (index r (Right p)) = Ok b /\
         DeepEqual a b = true).
Proof.
  intros Hctx.
  destruct (reachable_cached DeepEqual zeroE l r cs) as (bt & bp & bv & ->).
  exists (pairsOf DeepEqual l r).
  destruct (pairsOf_spec DeepEqual l r) as (_ & _ & Hch).
  split; [|split; [|split]].
  - unfold IndexPairs, drop_error.
    destruct (IndexPairsContext_cached DeepEqual zeroE l r Background bt bp bv) as [w ->].
    cbn [out]. rewrite via_table_never by apply Background_never. by destruct bp.
  - destruct (IndexPairsContext_cached DeepEqual zeroE l r ctx bt bp bv) as [w ->].
    cbn [out]. rewrite via_table_never by done. by destruct bp.
  - intros i p q Hp Hq. eapply chain_from_next; eassumption.
  - intros p Hp.
    destruct (chain_from_matched _ _ _ _ _ _ _ Hch Hp) as (a & b & H1 & H2 & Ha & Hb & Hab).
    exists a, b. by rewrite (run_index_Z _ _ _ H1 Ha), (run_index_Z _ _ _ H2 Hb).
Qed.

(** C4. On sessions of the same inputs, the sequence [Values] returns is
    as long as [Length] says and as the list of [IndexPairs], and its
    element at each position [i] is [left[p.Left]] for the pair [p] at
    position [i] of [IndexPairs]. *)
Theorem Values_projects_IndexPairs (l r : list E) (cs1 cs2 cs3 : list call) :
  exists vs ps k,
    out (Values DeepEqual zeroE (after' cs1 (New l r))) = Ok (Some vs) /\
    out (IndexPairs DeepEqual (after' cs2 (New l r))) = Ok (Some ps) /\
    out (Length DeepEqual (after' cs3 (New l r))) = Ok k /\
    len vs = k /\ len vs = len ps /\
    (forall (i : nat) p, ps !! i = Some p ->
       exists v, vs !! i = Some v /\ run (index l (Left p)) = Ok v).
Proof.
  destruct (reachable_cached DeepEqual zeroE l r cs1) as (bt1 & bp1 & bv1 & ->).
  destruct (reachable_cached DeepEqual zeroE l r cs2) as (bt2 & bp2 & bv2 & ->).
  destruct (reachable_cached DeepEqual zeroE l r cs3) as (bt3 & bp3 & bv3 & ->).
  exists (valuesOf DeepEqual zeroE l r), (pairsOf DeepEqual l r), (lengthOf DeepEqual l r).
  destruct (pairsOf_spec DeepEqual l r) as (_ & Hlen & Hch).
  destruct (valuesOf_spec DeepEqual zeroE l r) as (_ & Hvlen & Hv).
  pose proof (lcsT_nonneg DeepEqual l r (length l) (length r)) as H0.
  split; [|split; [|split; [|split; [|split]]]].
  - unfold Values, drop_error.
    destruct (ValuesContext_cached DeepEqual zeroE l r Background bt1 bp1 bv1) as [w ->].
    cbn [out]. rewrite via_table_never by apply Background_never. by destruct (bv1 || bp1).
  - unfold IndexPairs, drop_error.
    destruct (IndexPairsContext_cached DeepEqual zeroE l r Background bt2 bp2 bv2) as [w ->].
    cbn [out]. rewrite via_table_never by apply Background_never. by destruct bp2.
  - unfold Length, drop_error.
    destruct (LengthContext_cached DeepEqual zeroE l r Background bt3 bp3 bv3) as [w ->].
    cbn [out]. by rewrite via_table_never by apply Background_never.
  - unfold len. rewrite Hvlen, Hlen. unfold lengthOf in *. lia.
  - unfold len. by rewrite Hvlen.
  - intros i p Hp.
    assert (Hin : p ∈ pairsOf DeepEqual l r) by (eapply list_elem_of_lookup_2, Hp).
    destruct (pairsOf_in_range DeepEqual l r p Hin) as [Hp0 [v Hl]].
    exists v. split.
    + rewrite (Hv i p Hp). exact Hl.
    + by apply run_index_Z.
Qed.

(** C5, as the code has it.  On a fresh session whose right input is not
    empty, every cancellable entry point called with a context that is
    already done returns the error of that context and leaves the session
    as [New] made it, with no result cached; every cancellable entry point
    called on that session with a context that is never done then returns
    the same result as its blocking form. *)
Theorem cancelled_before_start (l r : list E) (ctx ctx' : Context) (e : error) :
  r <> [] -> AlreadyDone ctx e -> NeverDone ctx' ->
  let s := New l r in
  (out (TableContext DeepEqual ctx s) = Err e /\
   out (LengthContext DeepEqual ctx s) = Err e /\
   out (IndexPairsContext DeepEqual ctx s) = Err e /\
   out (ValuesContext DeepEqual zeroE ctx s) = Err e) /\
  (sess (TableContext DeepEqual ctx s) = s /\
   sess (LengthContext DeepEqual ctx s) = s /\
   sess (IndexPairsContext DeepEqual ctx s) = s /\
   sess (ValuesContext DeepEqual zeroE ctx s) = s) /\
  (table s = None /\ indexPairs s = None /\ values s = None) /\
  (exists t k ps vs,
     out (TableContext DeepEqual ctx' s) = Ok t /\
     out (Table DeepEqual s) = Ok (Some t) /\
     out (LengthContext DeepEqual ctx' s) = Ok k /\
     out (Length DeepEqual s) = Ok k /\
     out (IndexPairsContext DeepEqual ctx' s) = Ok ps /\
     out (IndexPairs DeepEqual s) = Ok (Some ps) /\
     out (ValuesContext DeepEqual zeroE ctx' s) = Ok vs /\
     out (Values DeepEqual zeroE s) = Ok (Some vs)).
Proof.
  intros Hr Hctx Hctx' s.
  assert (Hfd : first_done ctx 0 (length r) = Some e).
  { destruct r; [done|]. apply first_done_already, Hctx. }
  assert (Hvia : forall A (a : A), via_table r ctx false a = Err e).
  { intros A a. unfold via_table. by rewrite Hfd. }
  assert (Hpass : passes r ctx = false) by (unfold passes; by rewrite Hfd).
  unfold s. rewrite (New_cached DeepEqual zeroE).
  destruct (TableContext_cached DeepEqual zeroE l r ctx false false false) as [w1 H1].
  destruct (LengthContext_cached DeepEqual zeroE l r ctx false false false) as [w2 H2].
  destruct (IndexPairsContext_cached DeepEqual zeroE l r ctx false false false) as [w3 H3].
  destruct (ValuesContext_cached DeepEqual zeroE l r ctx false false false) as [w4 H4].
  destruct (TableContext_cached DeepEqual zeroE l r ctx' false false false) as [w5 H5].
  destruct (LengthContext_cached DeepEqual zeroE l r ctx' false false false) as [w6 H6].
  destruct (IndexPairsContext_cached DeepEqual zeroE l r ctx' false false false) as [w7 H7].
  destruct (ValuesContext_cached DeepEqual zeroE l r ctx' false false false) as [w8 H8].
  destruct (TableContext_cached DeepEqual zeroE l r Background false false false) as [w9 H9].
  destruct (LengthContext_cached DeepEqual zeroE l r Background false false false) as [w10 H10].
  destruct (IndexPairsContext_cached DeepEqual zeroE l r Background false false false)
    as [w11 H11].
  destruct (ValuesContext_cached DeepEqual zeroE l r Background false false false)
    as [w12 H12].
  unfold Table, Length, IndexPairs, Values, drop_error.
  rewrite H1, H2, H3, H4, H5, H6, H7, H8, H9, H10, H11, H12. cbn [out sess orb].
  rewrite !Hvia, !Hpass, !via_table_never by (done || apply Background_never).
  split; [done|]. split; [done|]. split; [done|].
  by eexists _, _, _, _.
Qed.

(** C6. When a cancellable entry point returns the error of its context,
    the session it leaves is the session it was called on: nothing was
    added to the cache, and the next call starts from the same cache. *)
Theorem cancelled_call_keeps_cache (l r : list E) (cs : list call) (ctx : Context) (e : error) :
  let s := after' cs (New l r) in
  (out (TableContext DeepEqual ctx s) = Err e ->
     sess (TableContext DeepEqual ctx s) = s) /\
  (out (LengthContext DeepEqual ctx s) = Err e ->
     sess (LengthContext DeepEqual ctx s) = s) /\
  (out (IndexPairsContext DeepEqual ctx s) = Err e ->
     sess (IndexPairsContext DeepEqual ctx s) = s) /\
  (out (ValuesContext DeepEqual zeroE ctx s) = Err e ->
     sess (ValuesContext DeepEqual zeroE ctx s) = s).
Proof.
  intros s. unfold s.
  destruct (reachable_cached DeepEqual zeroE l r cs) as (bt & bp & bv & ->).
  destruct (TableContext_cached DeepEqual zeroE l r ctx bt bp bv) as [w1 ->].
  destruct (LengthContext_cached DeepEqual zeroE l r ctx bt bp bv) as [w2 ->].
  destruct (IndexPairsContext_cached DeepEqual zeroE l r ctx bt bp bv) as [w3 ->].
  destruct (ValuesContext_cached DeepEqual zeroE l r ctx bt bp bv) as [w4 ->].
  cbn [out sess]. unfold via_table, passes.
  destruct (first_done ctx 0 (length r)); destruct bt, bp, bv; cbn [orb];
    repeat split; intros; (reflexivity || discriminate).
Qed.

(** C7. On every session, [Table], [IndexPairs] and [Values] each return
    a result and store it in the cache; the same call made again, at once
    or after any other calls, returns that result from the cache, leaves
    the session as it is and performs no allocation and no comparison. *)
Theorem second_call_uses_cache (l r : list E) (cs cs' : list call) :
  let s := after' cs (New l r) in
  (exists t,
     out (Table DeepEqual s) = Ok (Some t) /\
     table (sess (Table DeepEqual s)) = Some t /\
     table (after' cs' (sess (Table DeepEqual s))) = Some t /\
     Table DeepEqual (after' cs' (sess (Table DeepEqual s)))
     = mkResult (Ok (Some t)) (after' cs' (sess (Table DeepEqual s))) 0) /\
  (exists ps,
     out (IndexPairs DeepEqual s) = Ok (Some ps) /\
     indexPairs (sess (IndexPairs DeepEqual s)) = Some ps /\
     indexPairs (after' cs' (sess (IndexPairs DeepEqual s))) = Some ps /\
     IndexPairs DeepEqual (after' cs' (sess (IndexPairs DeepEqual s)))
     = mkResult (Ok (Some ps)) (after' cs' (sess (IndexPairs DeepEqual s))) 0) /\
  (exists vs,
     out (Values DeepEqual zeroE s) = Ok (Some vs) /\
     values (sess (Values DeepEqual zeroE s)) = Some vs /\
     values (after' cs' (sess (Values DeepEqual zeroE s))) = Some vs /\
     Values DeepEqual zeroE (after' cs' (sess (Values DeepEqual zeroE s)))
     = mkResult (Ok (Some vs)) (after' cs' (sess (Values DeepEqual zeroE s))) 0).
Proof.
  intros s. unfold s.
  destruct (reachable_cached DeepEqual zeroE l r cs) as (bt & bp & bv & ->).
  pose proof (passes_never r Background Background_never) as Hpass.
  split; [|split].
  - exists (tableOf DeepEqual l r).
    assert (H1 : out (Table DeepEqual (cached DeepEqual zeroE l r bt bp bv))
                 = Ok (Some (tableOf DeepEqual l r)) /\
                 sess (Table DeepEqual (cached DeepEqual zeroE l r bt bp bv))
                 = cached DeepEqual zeroE l r true bp bv).
    { unfold Table, drop_error.
      destruct (TableContext_cached DeepEqual zeroE l r Background bt bp bv) as [w ->].
      cbn [out sess]. by rewrite via_table_never, Hpass, orb_true_r by apply Background_never. }
    destruct H1 as [-> ->].
    destruct (after_cached DeepEqual zeroE l r cs' true bp bv)
      as (bt' & bp' & bv' & -> & Ht & _). rewrite Ht by done.
    repeat split; reflexivity.
  - exists (pairsOf DeepEqual l r).
    assert (H1 : out (IndexPairs DeepEqual (cached DeepEqual zeroE l r bt bp bv))
                 = Ok (Some (pairsOf DeepEqual l r)) /\
                 exists bt1, sess (IndexPairs DeepEqual (cached DeepEqual zeroE l r bt bp bv))
                 = cached DeepEqual zeroE l r bt1 true bv).
    { unfold IndexPairs, drop_error.
      destruct (IndexPairsContext_cached DeepEqual zeroE l r Background bt bp bv) as [w ->].
      cbn [out sess]. rewrite via_table_never, Hpass, orb_true_r by apply Background_never.
      destruct bp; (split; [reflexivity|]); by eexists. }
    destruct H1 as [-> [bt1 ->]].
    destruct (after_cached DeepEqual zeroE l r cs' bt1 true bv)
      as (bt' & bp' & bv' & -> & _ & Hp & _). rewrite Hp by done.
    repeat split; reflexivity.
  - exists (valuesOf DeepEqual zeroE l r).
    assert (H1 : out (Values DeepEqual zeroE (cached DeepEqual zeroE l r bt bp bv))
                 = Ok (Some (valuesOf DeepEqual zeroE l r)) /\
                 exists bt1 bp1,
                   sess (Values DeepEqual zeroE (cached DeepEqual zeroE l r bt bp bv))
                   = cached DeepEqual zeroE l r bt1 bp1 true).
    { unfold Values, drop_error.
      destruct (ValuesContext_cached DeepEqual zeroE l r Background bt bp bv) as [w ->].
      cbn [out sess]. rewrite via_table_never, Hpass, orb_true_r by apply Background_never.
      destruct bv, bp; (split; [reflexivity|]); by eexists _, _. }
    destruct H1 as [-> (bt1 & bp1 & ->)].
    destruct (after_cached DeepEqual zeroE l r cs' bt1 bp1 true)
      as (bt' & bp' & bv' & -> & _ & _ & Hv). rewrite Hv by done.
    repeat split; reflexivity.
Qed.

(** C8. When one of the two inputs is empty, on every session [Length]
    returns 0 and [IndexPairs] and [Values] return empty sequences; the
    cancellable forms return the same or else the error some poll of their
    context found, and nothing panics. *)
Theorem empty_input_results (l r : list E) (cs : list call) (ctx : Context) :
  l = [] \/ r = [] ->
  let s := after' cs (New l r) in
  out (Length DeepEqual s) = Ok 0 /\
  out (IndexPairs DeepEqual s) = Ok (Some []) /\
  out (Values DeepEqual zeroE s) = Ok (Some []) /\
  (out (LengthContext DeepEqual ctx s) = Ok 0 \/
   exists e k, ctx k = Some e /\ out (LengthContext DeepEqual ctx s) = Err e) /\
  (out (IndexPairsContext DeepEqual ctx s) = Ok [] \/
   exists e k, ctx k = Some e /\ out (IndexPairsContext DeepEqual ctx s) = Err e) /\
  (out (ValuesContext DeepEqual zeroE ctx s) = Ok [] \/
   exists e k, ctx k = Some e /\ out (ValuesContext DeepEqual zeroE ctx s) = Err e).
Proof.
  intros Hempty s. unfold s.
  destruct (reachable_cached DeepEqual zeroE l r cs) as (bt & bp & bv & ->).
  assert (Hk : lengthOf DeepEqual l r = 0).
  { pose proof (lcsT_bounds DeepEqual l r (length l) (length r)) as Hb.
    unfold lengthOf. destruct Hempty as [-> | ->]; simpl in *; lia. }
  assert (Hps : pairsOf DeepEqual l r = []).
  { destruct (pairsOf_spec DeepEqual l r) as (_ & Hlen & _).
    apply nil_length_inv. rewrite Hlen, Hk. reflexivity. }
  assert (Hvs : valuesOf DeepEqual zeroE l r = []).
  { destruct (valuesOf_spec DeepEqual zeroE l r) as (_ & Hlen & _).
    apply nil_length_inv. rewrite Hlen, Hps. reflexivity. }
  assert (Hvia : forall A (a : A),
            via_table r ctx bt a = Ok a \/ exists e k, ctx k = Some e /\ via_table r ctx bt a = Err e).
  { intros A a. unfold via_table. destruct bt; [by left|].
    destruct (first_done ctx 0 (length r)) as [e|] eqn:Hfd; [|by left].
    right. destruct (first_done_Some _ _ _ _ Hfd) as [k Hctx]. by exists e, k. }
  unfold Length, IndexPairs, Values, drop_error.
  destruct (LengthContext_cached DeepEqual zeroE l r Background bt bp bv) as [w1 ->].
  destruct (IndexPairsContext_cached DeepEqual zeroE l r Background bt bp bv) as [w2 ->].
  destruct (ValuesContext_cached DeepEqual zeroE l r Background bt bp bv) as [w3 ->].
  destruct (LengthContext_cached DeepEqual zeroE l r ctx bt bp bv) as [w4 ->].
  destruct (IndexPairsContext_cached DeepEqual zeroE l r ctx bt bp bv) as [w5 ->].
  destruct (ValuesContext_cached DeepEqual zeroE l r ctx bt bp bv) as [w6 ->].
  cbn [out]. rewrite !via_table_never by apply Background_never.
  rewrite Hk, Hps, Hvs.
  split; [done|]. split; [by destruct bp|]. split; [by destruct (bv || bp)|].
  split; [apply Hvia|]. split.
  - destruct bp; [by left|apply Hvia].
  - destruct (bv || bp); [by left|apply Hvia].
Qed.

(** C9, as the code has it.  For a sequence each of whose elements is
    deeply equal to itself, [Length] on a session with that sequence as
    both inputs returns its length. *)
Theorem Length_of_self (a : list E) (cs : list call) :
  (forall u, u ∈ a -> DeepEqual u u = true) ->
  out (Length DeepEqual (after' cs (New a a))) = Ok (len a).
Proof.
  intros Hrefl.
  destruct (reachable_cached DeepEqual zeroE a a cs) as (bt & bp & bv & ->).
  unfold Length, drop_error.
  destruct (LengthContext_cached DeepEqual zeroE a a Background bt bp bv) as [w ->].
  cbn [out]. rewrite via_table_never by apply Background_never.
  unfold lengthOf. by rewrite lcsT_diag.
Qed.

(** C10. On any session, a cancellable entry point whose cache field is
    filled returns the cached result with no error, leaves the session as
    it is and does no work, whatever the context: the cache is looked at
    before the context is. *)
Theorem cached_result_ignores_context (s : lcs) (ctx : Context) :
  (forall t, table s = Some t ->
     TableContext DeepEqual ctx s = mkResult (Ok t) s 0) /\
  (forall ps, indexPairs s = Some ps ->
     IndexPairsContext DeepEqual ctx s = mkResult (Ok ps) s 0) /\
  (forall vs, values s = Some vs ->
     ValuesContext DeepEqual zeroE ctx s = mkResult (Ok vs) s 0).
Proof.
  split; [|split].
  - intros t H. unfold TableContext. by rewrite H.
  - intros ps H. unfold IndexPairsContext. by rewrite H.
  - intros vs H. unfold ValuesContext. by rewrite H.
Qed.

End Properties.

(** ** The scenarios of the specification, and concrete instances *)

Definition scenario1 : lcs :=
  New (strs ["A"; "B"; "C"; "B"; "D"; "A"; "B"]) (strs ["B"; "D"; "C"; "A"; "B"; "A"]).

Definition scenario2 : lcs := New [] (strs ["X"; "Y"]).

Definition scenario3 : lcs := New (strs ["1"; "2"; "3"]) (strs ["1"; "2"; "3"]).

(** A context cancelled before the call. *)
Definition cancelled : Context := fun _ => Some Canceled.

Example scenario1_length : out (Length reflect_DeepEqual scenario1) = Ok 4.
Proof. reflexivity. Qed.

Example scenario1_values :
  out (Values reflect_DeepEqual GoNil scenario1) = Ok (Some (strs ["B"; "C"; "B"; "A"])).
Proof. reflexivity. Qed.

Example scenario2_results :
  out (Length reflect_DeepEqual scenario2) = Ok 0 /\
  out (IndexPairs reflect_DeepEqual scenario2) = Ok (Some []) /\
  out (Values reflect_DeepEqual GoNil scenario2) = Ok (Some []).
Proof. repeat split. Qed.

Example scenario3_results :
  out (Length reflect_DeepEqual scenario3) = Ok 3 /\
  out (IndexPairs reflect_DeepEqual scenario3)
  = Ok (Some [mkIndexPair 0 0; mkIndexPair 1 1; mkIndexPair 2 2]) /\
  out (Values reflect_DeepEqual GoNil scenario3) = Ok (Some (strs ["1"; "2"; "3"])).
Proof. repeat split. Qed.

Lemma cancelled_AlreadyDone : AlreadyDone cancelled Canceled.
Proof. intros k. reflexivity. Qed.

Lemma Length_is_lcs_length_witness :
  NeverDone Background /\
  exists k,
    out (Length reflect_DeepEqual (after reflect_DeepEqual GoNil [CallValues] scenario1)) = Ok k /\
    out (LengthContext reflect_DeepEqual Background
           (after reflect_DeepEqual GoNil [CallValues] scenario1)) = Ok k /\
    LcsLength reflect_DeepEqual (left scenario1) (right scenario1) k.
Proof.
  split; [exact Background_never|].
  exact (Length_is_lcs_length reflect_DeepEqual GoNil _ _ [CallValues] Background
           Background_never).
Defined.

Lemma TableContext_recurrence_witness :
  NeverDone Background /\
  exists t,
    out (TableContext reflect_DeepEqual Background
           (after reflect_DeepEqual GoNil [] scenario1)) = Ok t /\
    len t = len (left scenario1) + 1 /\
    (forall row, row ∈ t -> len row = len (right scenario1) + 1) /\
    (forall y, 0 <= y <= len (right scenario1) -> run (index2 t 0 y) = Ok 0) /\
    (forall x, 0 <= x <= len (left scenario1) -> run (index2 t x 0) = Ok 0) /\
    (forall x y, 1 <= x <= len (left scenario1) -> 1 <= y <= len (right scenario1) ->
       exists a b d u w,
         run (index (left scenario1) (x - 1)) = Ok a /\
         run (index (right scenario1) (y - 1)) = Ok b /\
         run (index2 t (x - 1) (y - 1)) = Ok d /\
         run (index2 t (x - 1) y) = Ok u /\
         run (index2 t x (y - 1)) = Ok w /\
         run (index2 t x y) = Ok (if reflect_DeepEqual a b then d + 1 else Z.max u w)).
Proof.
  split; [exact Background_never|].
  exact (TableContext_recurrence reflect_DeepEqual GoNil (left scenario1) (right scenario1)
           [] Background Background_never).
Defined.

Lemma IndexPairs_increasing_matched_witness :
  NeverDone Background /\
  exists ps,
    out (IndexPairs reflect_DeepEqual (after reflect_DeepEqual GoNil [] scenario1))
    = Ok (Some ps) /\
    out (IndexPairsContext reflect_DeepEqual Background
           (after reflect_DeepEqual GoNil [] scenario1)) = Ok ps /\
    (forall (i : nat) p q, ps !! i = Some p -> ps !! S i = Some q ->
       Left p < Left q /\ Right p < Right q) /\
    (forall p, p ∈ ps ->
       exists a b, run (index (left scenario1) (Left p)) = Ok a /\
         run (index (right scenario1) (Right p)) = Ok b /\
         reflect_DeepEqual a b = true).
Proof.
  split; [exact Background_never|].
  exact (IndexPairs_increasing_matched reflect_DeepEqual GoNil (left scenario1)
           (right scenario1) [] Background Background_never).
Defined.

(** C5 as stated fails when the right input is empty: the only poll of the
    context sits in the loop over [right], which then has no iteration, so
    a context that is already done goes unnoticed and results are cached. *)
Lemma cancelled_before_start_counterexample :
  AlreadyDone cancelled Canceled /\
  out (TableContext reflect_DeepEqual cancelled (New [GoInt 1] [])) = Ok [[0]; [0]] /\
  table (sess (TableContext reflect_DeepEqual cancelled (New [GoInt 1] [])))
  = Some [[0]; [0]] /\
  out (LengthContext reflect_DeepEqual cancelled (New [GoInt 1] [])) = Ok 0 /\
  out (IndexPairsContext reflect_DeepEqual cancelled (New [GoInt 1] [])) = Ok [] /\
  out (ValuesContext reflect_DeepEqual GoNil cancelled (New [GoInt 1] [])) = Ok [].
Proof. split; [exact cancelled_AlreadyDone|]. repeat split. Qed.

Lemma cancelled_before_start_witness :
  strs ["A"] <> [] /\ AlreadyDone cancelled Canceled /\ NeverDone Background /\
  let s := New (strs ["A"; "B"]) (strs ["A"]) in
  (out (TableContext reflect_DeepEqual cancelled s) = Err Canceled /\
   out (LengthContext reflect_DeepEqual cancelled s) = Err Canceled /\
   out (IndexPairsContext reflect_DeepEqual cancelled s) = Err Canceled /\
   out (ValuesContext reflect_DeepEqual GoNil cancelled s) = Err Canceled) /\
  (sess (TableContext reflect_DeepEqual cancelled s) = s /\
   sess (LengthContext reflect_DeepEqual cancelled s) = s /\
   sess (IndexPairsContext reflect_DeepEqual cancelled s) = s /\
   sess (ValuesContext reflect_DeepEqual GoNil cancelled s) = s).
Proof.
  assert (Hne : strs ["A"] <> []) by discriminate.
  split; [exact Hne|]. split; [exact cancelled_AlreadyDone|].
  split; [exact Background_never|].
  destruct (cancelled_before_start reflect_DeepEqual GoNil (strs ["A"; "B"]) (strs ["A"])
              cancelled Background Canceled Hne cancelled_AlreadyDone Background_never)
    as (Hout & Hsess & _).
  split; [exact Hout|exact Hsess].
Defined.

Lemma cancelled_call_keeps_cache_witness :
  out (IndexPairsContext reflect_DeepEqual cancelled
         (after reflect_DeepEqual GoNil [] scenario1)) = Err Canceled /\
  sess (IndexPairsContext reflect_DeepEqual cancelled
          (after reflect_DeepEqual GoNil [] scenario1))
  = after reflect_DeepEqual GoNil [] scenario1.
Proof.
  split; [reflexivity|].
  apply (cancelled_call_keeps_cache reflect_DeepEqual GoNil (left scenario1) (right scenario1)
           [] cancelled Canceled).
  reflexivity.
Defined.

Lemma empty_input_results_witness :
  (@nil GoValue = [] \/ right scenario2 = []) /\
  out (Length reflect_DeepEqual (after reflect_DeepEqual GoNil [] scenario2)) = Ok 0 /\
  out (IndexPairs reflect_DeepEqual (after reflect_DeepEqual GoNil [] scenario2))
  = Ok (Some []) /\
  out (Values reflect_DeepEqual GoNil (after reflect_DeepEqual GoNil [] scenario2))
  = Ok (Some []).
Proof.
  assert (H : @nil GoValue = [] \/ right scenario2 = []) by (left; reflexivity).
  split; [exact H|].
  destruct (empty_input_results reflect_DeepEqual GoNil [] (right scenario2) [] Background H)
    as (H1 & H2 & H3 & _).
  split; [exact H1|]. split; [exact H2|exact H3].
Defined.

(** C9 as stated fails on a sequence holding a non-nil function value,
    which [reflect.DeepEqual] never finds equal to itself. *)
Lemma Length_of_self_counterexample :
  out (Length reflect_DeepEqual (New [GoFunc 0] [GoFunc 0])) = Ok 0 /\
  len [GoFunc 0] = 1.
Proof. split; reflexivity. Qed.

Lemma strs_reflexive (l : list string) u :
  u ∈ strs l -> reflect_DeepEqual u u = true.
Proof.
  unfold strs. intros (s & -> & _)%list_elem_of_fmap. simpl.
  by apply bool_decide_eq_true_2.
Defined.

Lemma Length_of_self_witness :
  (forall u, u ∈ strs ["1"; "2"; "3"] -> reflect_DeepEqual u u = true) /\
  out (Length reflect_DeepEqual (after reflect_DeepEqual GoNil [] scenario3)) = Ok 3.
Proof.
  split; [exact (strs_reflexive _)|].
  exact (Length_of_self reflect_DeepEqual GoNil (strs ["1"; "2"; "3"]) []
           (strs_reflexive _)).
Defined.

Lemma cached_result_ignores_context_witness :
  values (sess (Values reflect_DeepEqual GoNil scenario3)) = Some (strs ["1"; "2"; "3"]) /\
  ValuesContext reflect_DeepEqual GoNil cancelled (sess (Values reflect_DeepEqual GoNil scenario3))
  = mkResult (Ok (strs ["1"; "2"; "3"])) (sess (Values reflect_DeepEqual GoNil scenario3)) 0.
Proof.
  split; [reflexivity|].
  apply (cached_result_ignores_context reflect_DeepEqual GoNil
           (sess (Values reflect_DeepEqual GoNil scenario3)) cancelled).
  reflexivity.
Defined.

(** ** Further properties of the library *)

(** *** Facts about the reference definition *)

Section ReferenceFacts.

Context {E : Type}.
Variable DeepEqual : E -> E -> bool.

Lemma LcsLength_unique (a b : list E) (j k : Z) :
  LcsLength DeepEqual a b j -> LcsLength DeepEqual a b k -> j = k.
Proof.
  intros [(sa & sb & Hc & Hj) Hmaxj] [(ta & tb & Hd & Hk) Hmaxk].
  pose proof (Hmaxj ta tb Hd). pose proof (Hmaxk sa sb Hc). lia.
Qed.

Lemma CommonSubseq_lengths (a b sa sb : list E) :
  CommonSubseq DeepEqual a b sa sb -> length sa = length sb.
Proof. intros (_ & _ & Hf). eapply Forall2_length, Hf. Qed.

Lemma CommonSubseq_weaken (a a' b b' sa sb : list E) :
  a `sublist_of` a' -> b `sublist_of` b' ->
  CommonSubseq DeepEqual a b sa sb -> CommonSubseq DeepEqual a' b' sa sb.
Proof.
  intros Ha Hb (Hsa & Hsb & Hf). split; [|split]; [| |done].
  - by transitivity a.
  - by transitivity b.
Qed.

Lemma sublist_same_length (s a : list E) :
  s `sublist_of` a -> length s = length a -> s = a.
Proof.
  induction 1 as [|x s a Hs IH|x s a Hs IH]; intros Hlen; [done| |].
  - simpl in Hlen. f_equal. apply IH. lia.
  - apply sublist_length in Hs. simpl in Hlen. lia.
Qed.

Lemma lengthOf_LcsLength (l r : list E) :
  LcsLength DeepEqual l r (lengthOf DeepEqual l r).
Proof. apply lcsT_LcsLength. Qed.

Lemma lengthOf_bounds (l r : list E) :
  0 <= lengthOf DeepEqual l r <= Z.min (len l) (len r).
Proof.
  pose proof (lcsT_bounds DeepEqual l r (length l) (length r)).
  unfold lengthOf, len. lia.
Qed.

End ReferenceFacts.

(** *** What every reachable session returns *)

Section Reachable.

Context {E : Type}.
Variable DeepEqual : E -> E -> bool.
Variable zeroE : E.
Variables l r : list E.

Local Abbreviation after' := (after DeepEqual zeroE).
Local Abbreviation cached' := (cached DeepEqual zeroE l r).

Lemma Table_reachable cs :
  out (Table DeepEqual (after' cs (New l r))) = Ok (Some (tableOf DeepEqual l r)).
Proof.
  destruct (reachable_cached DeepEqual zeroE l r cs) as (bt & bp & bv & ->).
  unfold Table, drop_error.
  destruct (TableContext_cached DeepEqual zeroE l r Background bt bp bv) as [w ->].
  cbn [out]. by rewrite via_table_never by apply Background_never.
Qed.

Lemma Length_reachable cs :
  out (Length DeepEqual (after' cs (New l r))) = Ok (lengthOf DeepEqual l r).
Proof.
  destruct (reachable_cached DeepEqual zeroE l r cs) as (bt & bp & bv & ->).
  unfold Length, drop_error.
  destruct (LengthContext_cached DeepEqual zeroE l r Background bt bp bv) as [w ->].
  cbn [out]. by rewrite via_table_never by apply Background_never.
Qed.

Lemma IndexPairs_reachable cs :
  out (IndexPairs DeepEqual (after' cs (New l r))) = Ok (Some (pairsOf DeepEqual l r)).
Proof.
  destruct (reachable_cached DeepEqual zeroE l r cs) as (bt & bp & bv & ->).
  unfold IndexPairs, drop_error.
  destruct (IndexPairsContext_cached DeepEqual zeroE l r Background bt bp bv) as [w ->].
  cbn [out]. rewrite via_table_never by apply Background_never. by destruct bp.
Qed.

Lemma Values_reachable cs :
  out (Values DeepEqual zeroE (after' cs (New l r)))
  = Ok (Some (valuesOf DeepEqual zeroE l r)).
Proof.
  destruct (reachable_cached DeepEqual zeroE l r cs) as (bt & bp & bv & ->).
  unfold Values, drop_error.
  destruct (ValuesContext_cached DeepEqual zeroE l r Background bt bp bv) as [w ->].
  cbn [out]. rewrite via_table_never by apply Background_never. by destruct (bv || bp).
Qed.

(** The cache fields are filled in the order table, pairs, values. *)
Lemma session_after_ordered c bt bp bv :
  (bv = true -> bp = true) -> (bp = true -> bt = true) ->
  exists bt' bp' bv', session_after DeepEqual zeroE c (cached' bt bp bv) = cached' bt' bp' bv' /\
    (bv' = true -> bp' = true) /\ (bp' = true -> bt' = true).
Proof.
  intros Hvp Hpt.
  destruct c as [|ctx| |ctx| |ctx| |ctx]; cbn [session_after];
    unfold Table, Length, IndexPairs, Values, drop_error; cbn [sess].
  - destruct (TableContext_cached DeepEqual zeroE l r Background bt bp bv) as [w ->].
    eexists _, _, _. split; [reflexivity|]. destruct bt, bp, bv; naive_solver.
  - destruct (TableContext_cached DeepEqual zeroE l r ctx bt bp bv) as [w ->].
    eexists _, _, _. split; [reflexivity|]. destruct bt, bp, bv; naive_solver.
  - destruct (LengthContext_cached DeepEqual zeroE l r Background bt bp bv) as [w ->].
    eexists _, _, _. split; [reflexivity|]. destruct bt, bp, bv; naive_solver.
  - destruct (LengthContext_cached DeepEqual zeroE l r ctx bt bp bv) as [w ->].
    eexists _, _, _. split; [reflexivity|]. destruct bt, bp, bv; naive_solver.
  - destruct (IndexPairsContext_cached DeepEqual zeroE l r Background bt bp bv) as [w ->].
    cbn [sess]. destruct bp; eexists _, _, _; (split; [reflexivity|]);
      destruct bt, bv; naive_solver.
  - destruct (IndexPairsContext_cached DeepEqual zeroE l r ctx bt bp bv) as [w ->].
    cbn [sess]. destruct bp; eexists _, _, _; (split; [reflexivity|]);
      destruct bt, bv; naive_solver.
  - destruct (ValuesContext_cached DeepEqual zeroE l r Background bt bp bv) as [w ->].
    cbn [sess]. destruct bv, bp; eexists _, _, _; (split; [reflexivity|]);
      destruct bt; naive_solver.
  - destruct (ValuesContext_cached DeepEqual zeroE l r ctx bt bp bv) as [w ->].
    cbn [sess]. destruct bv, bp; eexists _, _, _; (split; [reflexivity|]);
      destruct bt; naive_solver.
Qed.

Lemma after_ordered cs bt bp bv :
  (bv = true -> bp = true) -> (bp = true -> bt = true) ->
  exists bt' bp' bv', after' cs (cached' bt bp bv) = cached' bt' bp' bv' /\
    (bv' = true -> bp' = true) /\ (bp' = true -> bt' = true).
Proof.
  revert bt bp bv. induction cs as [|c cs IH]; intros bt bp bv Hvp Hpt.
  - by exists bt, bp, bv.
  - unfold after. cbn [foldl].
    destruct (session_after_ordered c bt bp bv Hvp Hpt) as (bt1 & bp1 & bv1 & -> & H1 & H2).
    apply IH; done.
Qed.

Lemma reachable_ordered cs :
  exists bt bp bv, after' cs (New l r) = cached' bt bp bv /\
    (bv = true -> bp = true) /\ (bp = true -> bt = true).
Proof. rewrite (New_cached DeepEqual zeroE). by apply after_ordered. Qed.

End Reachable.

(** *** Polls of the context *)

Lemma first_done_none ctx k n :
  (forall j, (k <= j < k + n)%nat -> ctx j = None) -> first_done ctx k n = None.
Proof.
  revert k. induction n as [|n IH]; intros k H; simpl; [reflexivity|].
  rewrite H by lia. apply IH. intros j Hj. apply H. lia.
Qed.

Lemma first_done_first ctx k n i e :
  (k <= i < k + n)%nat -> ctx i = Some e ->
  (forall j, (k <= j < i)%nat -> ctx j = None) ->
  first_done ctx k n = Some e.
Proof.
  revert k. induction n as [|n IH]; intros k Hi He Hbefore; [lia|].
  simpl. destruct (decide (i = k)) as [->|Hne].
  - by rewrite He.
  - rewrite Hbefore by lia. apply IH; [lia|done|].
    intros j Hj. apply Hbefore. lia.
Qed.

(** *** Distances in the table of the recurrence *)

Section Distances.

Context {E : Type}.
Variable DeepEqual : E -> E -> bool.
Variables l r : list E.

Lemma lcsT_lipschitz (x y x' y' : nat) :
  (x <= x')%nat -> (y <= y')%nat ->
  lcsT DeepEqual l r x' y'
  <= lcsT DeepEqual l r x y + Z.of_nat (x' - x) + Z.of_nat (y' - y).
Proof.
  intros Hx Hy.
  assert (H1 : lcsT DeepEqual l r x' y <= lcsT DeepEqual l r x y + Z.of_nat (x' - x)).
  { induction Hx as [|x' Hx IH]; [lia|].
    pose proof (lcsT_step_l DeepEqual l r x' y). lia. }
  assert (H2 : lcsT DeepEqual l r x' y' <= lcsT DeepEqual l r x' y + Z.of_nat (y' - y)).
  { induction Hy as [|y' Hy IH]; [lia|].
    pose proof (lcsT_step_r DeepEqual l r x' y'). lia. }
  lia.
Qed.

Lemma lcsT_prefix_LcsLength (x y : nat) :
  (x <= length l)%nat -> (y <= length r)%nat ->
  LcsLength DeepEqual (take x l) (take y r) (lcsT DeepEqual l r x y).
Proof.
  intros Hx Hy. split.
  - by apply lcsT_lower.
  - intros sa sb H. by apply (lcsT_upper DeepEqual l r x y sa sb).
Qed.

End Distances.

Section MoreProperties.

Context {E : Type}.
Variable DeepEqual : E -> E -> bool.
Variable zeroE : E.

Local Abbreviation after' := (after DeepEqual zeroE).

(** X1. [Left] and [Right] return the two sequences the session was made
    from, whatever calls were made on it in between. *)
Theorem accessors_return_inputs (l r : list E) (cs : list call) :
  Lcs_Left (after' cs (New l r)) = l /\ Lcs_Right (after' cs (New l r)) = r.
Proof.
  destruct (reachable_cached DeepEqual zeroE l r cs) as (bt & bp & bv & ->).
  split; reflexivity.
Qed.

(** X2. The entry [[x][y]] of the table [Table] returns is the length of a
    longest common subsequence of the first [x] elements of [left] and
    the first [y] elements of [right]. *)
Theorem Table_entries_are_prefix_lengths (l r : list E) (cs : list call) :
  exists t,
    out (Table DeepEqual (after' cs (New l r))) = Ok (Some t) /\
    forall x y : nat, (x <= length l)%nat -> (y <= length r)%nat ->
      exists v, run (index2 t (Z.of_nat x) (Z.of_nat y)) = Ok v /\
        LcsLength DeepEqual (take x l) (take y r) v.
Proof.
  exists (tableOf DeepEqual l r). split; [apply Table_reachable|].
  intros x y Hx Hy. exists (lcsT DeepEqual l r x y). split.
  - unfold tableOf. apply run_index2_mkTable; lia.
  - by apply lcsT_prefix_LcsLength.
Qed.

(** X3. The table [Table] returns does not decrease along either axis and
    grows by at most one per step: between an entry and one further down
    and to the right the difference is at least 0 and at most the number
    of steps; every entry [[x][y]] is between 0 and [min(x, y)]. *)
Theorem Table_is_monotone (l r : list E) (cs : list call) :
  exists t,
    out (Table DeepEqual (after' cs (New l r))) = Ok (Some t) /\
    forall x y x' y' : Z,
      0 <= x <= x' -> x' <= len l -> 0 <= y <= y' -> y' <= len r ->
      exists v v',
        run (index2 t x y) = Ok v /\ run (index2 t x' y') = Ok v' /\
        0 <= v <= Z.min x y /\ v <= v' <= v + (x' - x) + (y' - y).
Proof.
  exists (tableOf DeepEqual l r). split; [apply Table_reachable|].
  intros x y x' y' Hx Hx' Hy Hy'.
  exists (lcsT DeepEqual l r (Z.to_nat x) (Z.to_nat y)),
    (lcsT DeepEqual l r (Z.to_nat x') (Z.to_nat y')).
  rewrite (run_index2_tableOf_Z DeepEqual l r x y) by lia.
  rewrite (run_index2_tableOf_Z DeepEqual l r x' y') by lia.
  split; [done|]. split; [done|].
  pose proof (lcsT_bounds DeepEqual l r (Z.to_nat x) (Z.to_nat y)).
  pose proof (lcsT_mono DeepEqual l r (Z.to_nat x) (Z.to_nat y) (Z.to_nat x') (Z.to_nat y')
                ltac:(lia) ltac:(lia)).
  pose proof (lcsT_lipschitz DeepEqual l r (Z.to_nat x) (Z.to_nat y) (Z.to_nat x')
                (Z.to_nat y') ltac:(lia) ltac:(lia)).
  lia.
Qed.

(** X4. [Length] is never negative and never more than the length of the
    shorter input. *)
Theorem Length_bounds (l r : list E) (cs : list call) :
  exists k,
    out (Length DeepEqual (after' cs (New l r))) = Ok k /\
    0 <= k <= Z.min (len l) (len r).
Proof.
  exists (lengthOf DeepEqual l r). split; [apply Length_reachable|].
  apply lengthOf_bounds.
Qed.

(** X5. Table construction polls the context once per element of [right]
    and no more: a context that none of the first [len(right)] polls finds
    done lets every cancellable entry point succeed, with the result of
    its blocking form, whatever later polls would find. *)
Theorem later_polls_are_never_made (l r : list E) (cs : list call) (ctx : Context) :
  (forall k, (k < length r)%nat -> ctx k = None) ->
  let s := after' cs (New l r) in
  exists t k ps vs,
    out (TableContext DeepEqual ctx s) = Ok t /\
    out (Table DeepEqual s) = Ok (Some t) /\
    out (LengthContext DeepEqual ctx s) = Ok k /\
    out (Length DeepEqual s) = Ok k /\
    out (IndexPairsContext DeepEqual ctx s) = Ok ps /\
    out (IndexPairs DeepEqual s) = Ok (Some ps) /\
    out (ValuesContext DeepEqual zeroE ctx s) = Ok vs /\
    out (Values DeepEqual zeroE s) = Ok (Some vs).
Proof.
  intros Hctx s. unfold s.
  exists (tableOf DeepEqual l r), (lengthOf DeepEqual l r), (pairsOf DeepEqual l r),
    (valuesOf DeepEqual zeroE l r).
  rewrite Table_reachable, Length_reachable, IndexPairs_reachable, Values_reachable.
  destruct (reachable_cached DeepEqual zeroE l r cs) as (bt & bp & bv & ->).
  assert (Hvia : forall A (a : A), via_table r ctx bt a = Ok a).
  { intros A a. unfold via_table.
    rewrite first_done_none by (intros j Hj; apply Hctx; lia). by destruct bt. }
  destruct (TableContext_cached DeepEqual zeroE l r ctx bt bp bv) as [w1 ->].
  destruct (LengthContext_cached DeepEqual zeroE l r ctx bt bp bv) as [w2 ->].
  destruct (IndexPairsContext_cached DeepEqual zeroE l r ctx bt bp bv) as [w3 ->].
  destruct (ValuesContext_cached DeepEqual zeroE l r ctx bt bp bv) as [w4 ->].
  cbn [out]. rewrite !Hvia. destruct bp, bv; done.
Qed.

(** X6. On a session whose table is not cached, [TableContext] returns
    the error of the first poll, among the first [len(right)], that finds
    the context done, and leaves the session as it was. *)
Theorem first_done_poll_decides (l r : list E) (cs : list call) (ctx : Context)
    (i : nat) (e : error) :
  table (after' cs (New l r)) = None ->
  (i < length r)%nat -> ctx i = Some e ->
  (forall j, (j < i)%nat -> ctx j = None) ->
  out (TableContext DeepEqual ctx (after' cs (New l r))) = Err e /\
  sess (TableContext DeepEqual ctx (after' cs (New l r))) = after' cs (New l r).
Proof.
  intros Htable Hi He Hbefore.
  destruct (reachable_cached DeepEqual zeroE l r cs) as (bt & bp & bv & Hs).
  rewrite Hs in *. destruct bt; [discriminate|].
  destruct (TableContext_cached DeepEqual zeroE l r ctx false bp bv) as [w ->].
  cbn [out sess]. unfold via_table, passes.
  rewrite (first_done_first ctx 0 (length r) i e) by (lia || done || (intros; apply Hbefore; lia)).
  done.
Qed.

(** X7. Once the table is cached, no cancellable entry point fails, with
    any context: each returns what its blocking form returns. *)
Theorem no_failure_once_table_cached (l r : list E) (cs : list call) (ctx : Context) :
  is_Some (table (after' cs (New l r))) ->
  let s := after' cs (New l r) in
  exists t k ps vs,
    out (TableContext DeepEqual ctx s) = Ok t /\
    out (Table DeepEqual s) = Ok (Some t) /\
    out (LengthContext DeepEqual ctx s) = Ok k /\
    out (Length DeepEqual s) = Ok k /\
    out (IndexPairsContext DeepEqual ctx s) = Ok ps /\
    out (IndexPairs DeepEqual s) = Ok (Some ps) /\
    out (ValuesContext DeepEqual zeroE ctx s) = Ok vs /\
    out (Values DeepEqual zeroE s) = Ok (Some vs).
Proof.
  intros Htable s. unfold s.
  exists (tableOf DeepEqual l r), (lengthOf DeepEqual l r), (pairsOf DeepEqual l r),
    (valuesOf DeepEqual zeroE l r).
  rewrite Table_reachable, Length_reachable, IndexPairs_reachable, Values_reachable.
  destruct (reachable_cached DeepEqual zeroE l r cs) as (bt & bp & bv & Hs).
  rewrite Hs in *. destruct bt; [|by destruct Htable].
  destruct (TableContext_cached DeepEqual zeroE l r ctx true bp bv) as [w1 ->].
  destruct (LengthContext_cached DeepEqual zeroE l r ctx true bp bv) as [w2 ->].
  destruct (IndexPairsContext_cached DeepEqual zeroE l r ctx true bp bv) as [w3 ->].
  destruct (ValuesContext_cached DeepEqual zeroE l r ctx true bp bv) as [w4 ->].
  cbn [out via_table]. destruct bp, bv; done.
Qed.

(** X8. A derived computation fails exactly when its own cache field is
    empty and the table construction fails, and with the same error. *)
Theorem errors_come_from_TableContext (l r : list E) (cs : list call) (ctx : Context)
    (e : error) :
  let s := after' cs (New l r) in
  (out (LengthContext DeepEqual ctx s) = Err e <->
     out (TableContext DeepEqual ctx s) = Err e) /\
  (out (IndexPairsContext DeepEqual ctx s) = Err e <->
     indexPairs s = None /\ out (TableContext DeepEqual ctx s) = Err e) /\
  (out (ValuesContext DeepEqual zeroE ctx s) = Err e <->
     values s = None /\ indexPairs s = None /\
     out (TableContext DeepEqual ctx s) = Err e).
Proof.
  intros s. unfold s.
  destruct (reachable_cached DeepEqual zeroE l r cs) as (bt & bp & bv & ->).
  destruct (TableContext_cached DeepEqual zeroE l r ctx bt bp bv) as [w1 ->].
  destruct (LengthContext_cached DeepEqual zeroE l r ctx bt bp bv) as [w2 ->].
  destruct (IndexPairsContext_cached DeepEqual zeroE l r ctx bt bp bv) as [w3 ->].
  destruct (ValuesContext_cached DeepEqual zeroE l r ctx bt bp bv) as [w4 ->].
  cbn [out indexPairs values cached]. unfold via_table.
  destruct (first_done ctx 0 (length r)); destruct bt, bp, bv; cbn [orb];
    repeat split; intros; destruct_and?; congruence.
Qed.

(** X9. The cache is filled in dependency order: on every session, cached
    values come with cached index pairs, and cached index pairs with a
    cached table. *)
Theorem cache_filled_in_order (l r : list E) (cs : list call) :
  (is_Some (values (after' cs (New l r))) -> is_Some (indexPairs (after' cs (New l r)))) /\
  (is_Some (indexPairs (after' cs (New l r))) -> is_Some (table (after' cs (New l r)))).
Proof.
  destruct (reachable_ordered DeepEqual zeroE l r cs) as (bt & bp & bv & -> & Hvp & Hpt).
  cbn [values indexPairs table cached].
  split; intros [x Hx].
  - destruct bv; [|discriminate]. rewrite Hvp by done. by eexists.
  - destruct bp; [|discriminate]. rewrite Hpt by done. by eexists.
Qed.

(** X10. The cache is never stale: whatever a cache field of a session
    holds is what the blocking method returns on a fresh session of the
    same inputs. *)
Theorem cache_holds_fresh_results (l r : list E) (cs : list call) :
  (forall t, table (after' cs (New l r)) = Some t ->
     out (Table DeepEqual (New l r)) = Ok (Some t)) /\
  (forall ps, indexPairs (after' cs (New l r)) = Some ps ->
     out (IndexPairs DeepEqual (New l r)) = Ok (Some ps)) /\
  (forall vs, values (after' cs (New l r)) = Some vs ->
     out (Values DeepEqual zeroE (New l r)) = Ok (Some vs)).
Proof.
  pose proof (Table_reachable DeepEqual zeroE l r []) as Ht.
  pose proof (IndexPairs_reachable DeepEqual zeroE l r []) as Hp.
  pose proof (Values_reachable DeepEqual zeroE l r []) as Hv.
  cbn [after foldl] in Ht, Hp, Hv. rewrite Ht, Hp, Hv.
  destruct (reachable_cached DeepEqual zeroE l r cs) as (bt & bp & bv & ->).
  cbn [table indexPairs values cached].
  split; [|split]; intros x Hx.
  - destruct bt; [|discriminate]. by injection Hx as <-.
  - destruct bp; [|discriminate]. by injection Hx as <-.
  - destruct bv; [|discriminate]. by injection Hx as <-.
Qed.

End MoreProperties.

(** *** The value sequence as a common subsequence *)

Section Selection.

Context {E : Type}.
Variable DeepEqual : E -> E -> bool.
Variables l r : list E.

(** The elements a chain selects on the left form a subsequence of
    [left], and those it selects on the right one of [right]. *)
Lemma chain_common (ps : list IndexPair) (x y : Z) (vs : list E) :
  0 <= x -> 0 <= y ->
  chain_from DeepEqual l r x y ps ->
  length vs = length ps ->
  (forall j p, ps !! j = Some p -> vs !! j = l !! Z.to_nat (Left p)) ->
  exists sb,
    vs `sublist_of` drop (Z.to_nat x) l /\ sb `sublist_of` drop (Z.to_nat y) r /\
    Forall2 (fun u v => DeepEqual u v = true) vs sb.
Proof.
  revert x y vs. induction ps as [|p ps IH]; intros x y vs Hx Hy Hch Hlen Hv.
  - apply nil_length_inv in Hlen as ->. exists []. repeat split; try done.
    all: apply sublist_nil_l.
  - destruct vs as [|v vs]; [done|].
    destruct Hch as (Hxp & Hyp & (a & b & Hl0 & Hr0 & Ha & Hb & Hab) & Hch).
    pose proof (Hv O p eq_refl) as Hv0. simpl in Hv0. rewrite Ha in Hv0.
    injection Hv0 as ->.
    destruct (IH (Left p + 1) (Right p + 1) vs ltac:(lia) ltac:(lia) Hch) as (sb & Hs & Ht & Hf).
    { simpl in Hlen. lia. }
    { intros j q Hq. apply (Hv (S j) q Hq). }
    exists (b :: sb). split; [|split].
    + transitivity (drop (Z.to_nat (Left p)) l).
      * rewrite (drop_S _ _ _ Ha). apply sublist_skip.
        by replace (S (Z.to_nat (Left p))) with (Z.to_nat (Left p + 1)) by lia.
      * replace (Z.to_nat (Left p))
          with (Z.to_nat x + (Z.to_nat (Left p) - Z.to_nat x))%nat by lia.
        rewrite <- drop_drop. apply sublist_drop.
    + transitivity (drop (Z.to_nat (Right p)) r).
      * rewrite (drop_S _ _ _ Hb). apply sublist_skip.
        by replace (S (Z.to_nat (Right p))) with (Z.to_nat (Right p + 1)) by lia.
      * replace (Z.to_nat (Right p))
          with (Z.to_nat y + (Z.to_nat (Right p) - Z.to_nat y))%nat by lia.
        rewrite <- drop_drop. apply sublist_drop.
    + by constructor.
Qed.

Lemma CommonSubseq_sym (a b sa sb : list E) :
  (forall u v, DeepEqual u v = DeepEqual v u) ->
  CommonSubseq DeepEqual a b sa sb -> CommonSubseq DeepEqual b a sb sa.
Proof.
  intros Hsym (Ha & Hb & Hf). split; [done|]. split; [done|].
  apply Forall2_flip. eapply Forall2_impl; [exact Hf|].
  intros u v Huv. unfold flip. by rewrite Hsym.
Qed.

Lemma LcsLength_sym (a b : list E) (k : Z) :
  (forall u v, DeepEqual u v = DeepEqual v u) ->
  LcsLength DeepEqual a b k -> LcsLength DeepEqual b a k.
Proof.
  intros Hsym [(sa & sb & Hc & Hk) Hmax]. split.
  - exists sb, sa. split; [by apply CommonSubseq_sym|].
    unfold len in *. by rewrite <- (CommonSubseq_lengths _ _ _ _ _ Hc).
  - intros ta tb Hd. apply CommonSubseq_sym in Hd; [|done].
    pose proof (Hmax tb ta Hd) as Hle.
    unfold len in *. by rewrite <- (CommonSubseq_lengths _ _ _ _ _ Hd).
Qed.

End Selection.

Section LengthProperties.

Context {E : Type}.
Variable DeepEqual : E -> E -> bool.
Variable zeroE : E.

Local Abbreviation after' := (after DeepEqual zeroE).

(** X11. [Values] returns a longest common subsequence: a subsequence of
    [left] that agrees, element by element under the predicate, with a
    subsequence of [right], and no common subsequence is longer. *)
Theorem Values_is_longest_common_subsequence (l r : list E) (cs : list call) :
  exists vs sb,
    out (Values DeepEqual zeroE (after' cs (New l r))) = Ok (Some vs) /\
    CommonSubseq DeepEqual l r vs sb /\
    LcsLength DeepEqual l r (len vs).
Proof.
  destruct (pairsOf_spec DeepEqual l r) as (_ & Hlen & Hch).
  destruct (valuesOf_spec DeepEqual zeroE l r) as (_ & Hvlen & Hv).
  destruct (chain_common DeepEqual l r _ 0 0 (valuesOf DeepEqual zeroE l r)
              ltac:(lia) ltac:(lia) Hch Hvlen Hv) as (sb & Hs & Ht & Hf).
  exists (valuesOf DeepEqual zeroE l r), sb.
  split; [apply Values_reachable|]. split; [done|].
  pose proof (lengthOf_bounds DeepEqual l r).
  replace (len (valuesOf DeepEqual zeroE l r)) with (lengthOf DeepEqual l r)
    by (unfold len; lia).
  apply lengthOf_LcsLength.
Qed.

(** X12. When the predicate is symmetric, [Length] does not depend on
    which input is the left one. *)
Theorem Length_symmetric (l r : list E) (cs1 cs2 : list call) :
  (forall u v, DeepEqual u v = DeepEqual v u) ->
  out (Length DeepEqual (after' cs1 (New l r)))
  = out (Length DeepEqual (after' cs2 (New r l))).
Proof.
  intros Hsym. rewrite !Length_reachable. f_equal.
  eapply (LcsLength_unique DeepEqual l r); [apply lengthOf_LcsLength|].
  apply LcsLength_sym; [done|]. apply lengthOf_LcsLength.
Qed.

(** X13. [Length] does not decrease when elements are added anywhere to
    either input: for [l] a subsequence of [l'] and [r] one of [r'], the
    length for [l], [r] is at most that for [l'], [r']. *)
Theorem Length_monotone (l l' r r' : list E) (cs1 cs2 : list call) :
  l `sublist_of` l' -> r `sublist_of` r' ->
  exists k k',
    out (Length DeepEqual (after' cs1 (New l r))) = Ok k /\
    out (Length DeepEqual (after' cs2 (New l' r'))) = Ok k' /\
    k <= k'.
Proof.
  intros Hl Hr. exists (lengthOf DeepEqual l r), (lengthOf DeepEqual l' r').
  rewrite !Length_reachable. split; [done|]. split; [done|].
  destruct (lengthOf_LcsLength DeepEqual l r) as [(sa & sb & Hc & <-) _].
  destruct (lengthOf_LcsLength DeepEqual l' r') as [_ Hmax].
  apply (Hmax sa sb). by apply (CommonSubseq_weaken DeepEqual l l' r r').
Qed.

(** X14. [Length] is the length of [left] exactly when the whole of
    [left] agrees, element by element under the predicate, with some
    subsequence of [right]. *)
Theorem Length_full_iff_embedded (l r : list E) (cs : list call) :
  out (Length DeepEqual (after' cs (New l r))) = Ok (len l) <->
  exists sb, sb `sublist_of` r /\ Forall2 (fun u v => DeepEqual u v = true) l sb.
Proof.
  rewrite Length_reachable.
  destruct (lengthOf_LcsLength DeepEqual l r) as [(sa & sb & Hc & Hk) Hmax].
  pose proof (lengthOf_bounds DeepEqual l r) as Hb.
  split.
  - intros [= Heq]. exists sb. destruct Hc as (Hsa & Hsb & Hf).
    assert (sa = l) as <-; [|done].
    apply sublist_same_length; [done|]. unfold len in *. lia.
  - intros (tb & Htb & Hf). f_equal.
    pose proof (Hmax l tb ltac:(by split; [|split])). lia.
Qed.

(** X15. [Length] is 0 exactly when no element of [left] is deeply equal
    to an element of [right]. *)
Theorem Length_zero_iff_no_match (l r : list E) (cs : list call) :
  out (Length DeepEqual (after' cs (New l r))) = Ok 0 <->
  forall a b, a ∈ l -> b ∈ r -> DeepEqual a b = false.
Proof.
  rewrite Length_reachable.
  destruct (lengthOf_LcsLength DeepEqual l r) as [(sa & sb & Hc & Hk) Hmax].
  pose proof (lengthOf_bounds DeepEqual l r) as Hb.
  split.
  - intros [= Heq] a b Ha Hb'. destruct (DeepEqual a b) eqn:Hab; [|done].
    assert (Hc1 : CommonSubseq DeepEqual l r [a] [b]).
    { split; [by apply singleton_sublist_l|]. split; [by apply singleton_sublist_l|].
      by repeat constructor. }
    pose proof (Hmax [a] [b] Hc1) as Hle. unfold len in Hle. simpl in Hle. lia.
  - intros Hno. f_equal. destruct Hc as (Hsa & Hsb & Hf).
    destruct Hf as [|a b sa sb Hab Hf]; [unfold len in Hk; simpl in Hk; lia|].
    rewrite (Hno a b) in Hab; [discriminate| |].
    + eapply elem_of_sublist; [|exact Hsa]. by left.
    + eapply elem_of_sublist; [|exact Hsb]. by left.
Qed.

(** X16. [Length] follows the LCS recurrence on the last elements of the
    inputs: with deeply equal last elements it is one more than without
    them, otherwise it is the larger of the two lengths obtained by
    dropping one last element. *)
Theorem Length_of_extended_inputs (l r : list E) (a b : E) (cs1 cs2 cs3 cs4 : list call) :
  exists k kl kr k',
    out (Length DeepEqual (after' cs1 (New l r))) = Ok k /\
    out (Length DeepEqual (after' cs2 (New l (r ++ [b])))) = Ok kl /\
    out (Length DeepEqual (after' cs3 (New (l ++ [a]) r))) = Ok kr /\
    out (Length DeepEqual (after' cs4 (New (l ++ [a]) (r ++ [b])))) = Ok k' /\
    k' = if DeepEqual a b then k + 1 else Z.max kl kr.
Proof.
  exists (lengthOf DeepEqual l r), (lengthOf DeepEqual l (r ++ [b])),
    (lengthOf DeepEqual (l ++ [a]) r), (lengthOf DeepEqual (l ++ [a]) (r ++ [b])).
  rewrite !Length_reachable. do 4 (split; [done|]).
  set (l' := l ++ [a]). set (r' := r ++ [b]).
  assert (Hl : l' !! length l = Some a) by (unfold l'; apply list_lookup_middle; done).
  assert (Hr : r' !! length r = Some b) by (unfold r'; apply list_lookup_middle; done).
  assert (Hll : length l' = S (length l)) by (unfold l'; rewrite length_app; simpl; lia).
  assert (Hlr : length r' = S (length r)) by (unfold r'; rewrite length_app; simpl; lia).
  assert (Htl : take (length l) l' = l) by (unfold l'; by rewrite take_app_length).
  assert (Htr : take (length r) r' = r) by (unfold r'; by rewrite take_app_length).
  assert (H00 : lcsT DeepEqual l' r' (length l) (length r) = lengthOf DeepEqual l r).
  { eapply (LcsLength_unique DeepEqual l r); [|apply lengthOf_LcsLength].
    rewrite <- Htl at 1. rewrite <- Htr at 1. apply lcsT_prefix_LcsLength; lia. }
  assert (H01 : lcsT DeepEqual l' r' (length l) (S (length r)) = lengthOf DeepEqual l r').
  { eapply (LcsLength_unique DeepEqual l r'); [|apply lengthOf_LcsLength].
    rewrite <- Htl at 1. rewrite <- (take_ge r' (S (length r))) at 1 by lia.
    apply lcsT_prefix_LcsLength; lia. }
  assert (H10 : lcsT DeepEqual l' r' (S (length l)) (length r) = lengthOf DeepEqual l' r).
  { eapply (LcsLength_unique DeepEqual l' r); [|apply lengthOf_LcsLength].
    rewrite <- Htr at 1. rewrite <- (take_ge l' (S (length l))) at 1 by lia.
    apply lcsT_prefix_LcsLength; lia. }
  unfold lengthOf at 1. rewrite Hll, Hlr, <- H00, <- H01, <- H10.
  destruct (DeepEqual a b) eqn:Hab.
  - apply lcsT_match. unfold inc. by rewrite Hl, Hr, Hab.
  - apply lcsT_mismatch. unfold inc. by rewrite Hl, Hr, Hab.
Qed.

End LengthProperties.

(** *** Work *)

(** The work a computation performed. *)
Definition cost {A} (c : C A) : nat := snd c.

Lemma cost_cbind {A B} (m : C A) (f : A -> C B) :
  cost (cbind m f) =
  match run m with
  | Ok a => (cost m + cost (f a))%nat
  | _ => cost m
  end.
Proof.
  destruct m as [[a|e| |] n]; simpl; try reflexivity.
  destruct (f a); reflexivity.
Qed.

Lemma run_cbind_inv {A B} (m : C A) (f : A -> C B) b :
  run (cbind m f) = Ok b -> exists a, run m = Ok a /\ run (f a) = Ok b.
Proof.
  rewrite run_cbind. destruct (run m) as [a|e| |]; try discriminate.
  intros H. by exists a.
Qed.

Lemma cost_cbind_free {A B} (m : C A) (f : A -> C B) :
  cost m = O -> (forall a, cost (f a) = O) -> cost (cbind m f) = O.
Proof.
  intros Hm Hf. rewrite cost_cbind, Hm. destruct (run m); [apply Hf|done..].
Qed.

Lemma cost_index {A} (l : list A) i : cost (index l i) = O.
Proof. unfold index. case_bool_decide; [|done]. by destruct (l !! Z.to_nat i). Qed.

Lemma cost_store {A} (l : list A) i v : cost (store l i v) = O.
Proof. unfold store. by case_bool_decide. Qed.

Lemma cost_index2 t x y : cost (index2 t x y) = O.
Proof. apply cost_cbind_free; [apply cost_index|]. intros. apply cost_index. Qed.

Lemma cost_store2 t x y v : cost (store2 t x y v) = O.
Proof.
  apply cost_cbind_free; [apply cost_index|]. intros.
  apply cost_cbind_free; [apply cost_store|]. intros. apply cost_store.
Qed.

Lemma cost_make {A} (z : A) n : 0 <= n -> cost (make z n) = 1%nat.
Proof. intros H. unfold make. by rewrite bool_decide_eq_true_2. Qed.

(** A loop that runs to completion with every iteration costing [c]. *)
Lemma for_range_cost {St} (c : nat) (body : Z -> St -> C St) n start s s' :
  (forall k t t', (k < n)%nat ->
     run (body (start + Z.of_nat k) t) = Ok t' -> cost (body (start + Z.of_nat k) t) = c) ->
  run (for_range n start body s) = Ok s' ->
  cost (for_range n start body s) = (n * c)%nat.
Proof.
  revert start s. induction n as [|n IH]; intros start s Hc Hrun; [reflexivity|].
  cbn [for_range] in *. apply run_cbind_inv in Hrun as (s1 & H1 & Hrest).
  rewrite cost_cbind, H1.
  pose proof (Hc O s s1 ltac:(lia)) as H0. rewrite Z.add_0_r in H0. rewrite (H0 H1).
  rewrite (IH (start + 1) s1); [lia| |done].
  intros k t t' Hk Hb.
  replace (start + 1 + Z.of_nat k) with (start + Z.of_nat (S k)) in * by lia.
  apply (Hc (S k) t t'); [lia|done].
Qed.



(** The number of polls, among [k], ..., [k+n-1], before the first one
    that finds the context done. *)
Fixpoint polls_before_done (ctx : Context) (k n : nat) : nat :=
  match n with
  | O => O
  | S n' =>
    match ctx k with
    | Some _ => O
    | None => S (polls_before_done ctx (S k) n')
    end
  end.

Lemma polls_before_done_none ctx k n :
  (forall j, (k <= j < k + n)%nat -> ctx j = None) -> polls_before_done ctx k n = n.
Proof.
  revert k. induction n as [|n IH]; intros k H; simpl; [reflexivity|].
  rewrite H by lia. f_equal. apply IH. intros j Hj. apply H. lia.
Qed.


Section Work.

Context {E : Type}.
Variable DeepEqual : E -> E -> bool.
Variable zeroE : E.
Variables l r : list E.

Let m := length l.
Let n := length r.

Lemma cost_rows_step (b : nat) x t :
  cost (TableContext_rows (Z.of_nat b) x t) = 1%nat.
Proof.
  unfold TableContext_rows. rewrite cost_cbind, run_make, cost_make, cost_store by lia.
  done.
Qed.

Lemma cost_rows (a b : nat) :
  cost (for_range a 0 (TableContext_rows (Z.of_nat b)) (replicate a [])) = a.
Proof.
  rewrite (for_range_cost 1 _ _ _ _ _ (fun _ _ _ _ _ => cost_rows_step _ _ _)
             (run_rows l r a b)).
  lia.
Qed.

Lemma cost_cell (x y : Z) t t' :
  run (TableContext_cell DeepEqual l r y x t) = Ok t' ->
  cost (TableContext_cell DeepEqual l r y x t) = 1%nat.
Proof.
  unfold TableContext_cell. intros Hrun.
  apply run_cbind_inv in Hrun as (a & Ha & Hrun).
  apply run_cbind_inv in Hrun as (b & Hb & Hrun).
  rewrite cost_cbind, Ha, cost_index, cost_cbind, Hb, cost_index, cost_cbind, run_tick.
  cbn [cost tick snd]. rewrite !cost_cbind_free; [done|apply cost_index2|].
  intros. apply cost_cbind_free; [apply cost_index2|].
  intros. apply cost_cbind_free; [apply cost_index2|].
  intros. apply cost_store2.
Qed.

Lemma cost_column ctx (y : nat) :
  (1 <= y <= n)%nat -> ctx (y - 1)%nat = None ->
  cost (TableContext_column DeepEqual ctx l r (len l + 1) (Z.of_nat y)
          (mkTable (S m) (S n) (partialT DeepEqual l r y 1))) = m.
Proof.
  intros Hy Hctx. pose proof (run_column DeepEqual l r ctx y Hy Hctx) as Hrun.
  unfold TableContext_column in *.
  replace (Z.to_nat (Z.of_nat y - 1)) with (y - 1)%nat in * by lia. rewrite Hctx in *.
  replace (Z.to_nat (len l + 1 - 1)) with m in * by (unfold len, m; lia).
  cbv beta iota in *. unfold m, n in *.
  rewrite (for_range_cost 1 _ _ _ _ _ (fun _ _ _ _ H => cost_cell _ _ _ _ H) Hrun). lia.
Qed.

Lemma cost_columns ctx (k : nat) (y : nat) :
  (1 <= y)%nat -> (y + k = S n)%nat ->
  cost (for_range k (Z.of_nat y) (TableContext_column DeepEqual ctx l r (len l + 1))
          (mkTable (S m) (S n) (partialT DeepEqual l r y 1)))
  = (polls_before_done ctx (y - 1) k * m)%nat.
Proof.
  unfold m, n. revert y. induction k as [|k IH]; intros y Hy Hk; [reflexivity|].
  cbn [for_range polls_before_done]. rewrite cost_cbind.
  destruct (ctx (y - 1)%nat) as [e|] eqn:Hctx.
  - unfold TableContext_column.
    replace (Z.to_nat (Z.of_nat y - 1)) with (y - 1)%nat by lia.
    rewrite Hctx. reflexivity.
  - rewrite run_column, cost_column by (done || lia).
    replace (Z.of_nat y + 1) with (Z.of_nat (S y)) by lia.
    rewrite IH by lia. replace (S y - 1)%nat with (S (y - 1)) by lia. lia.
Qed.

(** The work of lines 68-90: one allocation for the table, one per row,
    and one comparison per cell of every column begun. *)
Lemma cost_build ctx :
  cost (TableContext_build DeepEqual ctx l r)
  = (m + 2 + polls_before_done ctx 0 n * m)%nat.
Proof.
  unfold TableContext_build.
  replace (len l + 1) with (Z.of_nat (S m)) by (unfold len, m; lia).
  replace (len r + 1) with (Z.of_nat (S n)) by (unfold len, n; lia).
  rewrite cost_cbind, run_make, cost_make by lia.
  rewrite Nat2Z.id, cost_cbind, (run_rows l r), cost_rows.
  replace (Z.to_nat (Z.of_nat (S n) - 1)) with n by lia.
  rewrite mkTable_replicate.
  replace (Z.of_nat (S m)) with (len l + 1) by (unfold len, m; lia).
  rewrite (mkTable_ext _ _ _ (partialT DeepEqual l r 1 1)).
  - pose proof (cost_columns ctx n 1 ltac:(lia) ltac:(lia)) as Hc.
    change (Z.of_nat 1) with 1 in Hc. unfold m, n in *. rewrite Hc.
    cbn [tick snd Nat.sub]. lia.
  - intros i j Hi Hj. unfold partialT. case_bool_decide as H; [|reflexivity].
    destruct H as [H|[-> H]].
    + replace j with O by lia. by rewrite lcsT_0_r.
    + replace i with O by lia. by rewrite lcsT_0_l.
Qed.



End Work.

Section WorkProperties.

Context {E : Type}.
Variable DeepEqual : E -> E -> bool.
Variable zeroE : E.

Local Abbreviation after' := (after DeepEqual zeroE).

Lemma TableContext_work_cost (s : lcs) (ctx : Context) :
  table s = None ->
  work (TableContext DeepEqual ctx s)
  = cost (TableContext_build DeepEqual ctx (left s) (right s)).
Proof.
  intros Ht. unfold TableContext. rewrite Ht.
  by destruct (TableContext_build DeepEqual ctx (left s) (right s)) as [[t|e| |] w].
Qed.

(** X17. On a session whose table is not cached, a table construction
    that no poll interrupts performs one comparison for each pair of an
    element of [left] and an element of [right], and [len(left) + 2]
    allocations. *)
Theorem TableContext_work (s : lcs) (ctx : Context) :
  table s = None ->
  (forall k, (k < length (right s))%nat -> ctx k = None) ->
  work (TableContext DeepEqual ctx s)
  = (length (left s) * length (right s) + (length (left s) + 2))%nat.
Proof.
  intros Ht Hctx. rewrite TableContext_work_cost, cost_build by done.
  rewrite polls_before_done_none by (intros j Hj; apply Hctx; lia). lia.
Qed.




End WorkProperties.

(** *** Concrete instances *)

(** A context found done from poll [i] on. *)
Definition done_from (i : nat) : Context :=
  fun k => if (k <? i)%nat then None else Some Canceled.

Lemma done_from_before (i k : nat) : (k < i)%nat -> done_from i k = None.
Proof. intros H. unfold done_from. by rewrite (proj2 (Nat.ltb_lt k i) H). Qed.

Lemma done_from_at (i : nat) : done_from i i = Some Canceled.
Proof. unfold done_from. by rewrite Nat.ltb_irrefl. Qed.

Lemma reflect_DeepEqual_sym (u v : GoValue) :
  reflect_DeepEqual u v = reflect_DeepEqual v u.
Proof.
  destruct u, v; simpl; try reflexivity; apply bool_decide_ext; split; congruence.
Qed.

Lemma later_polls_are_never_made_witness :
  (forall k, (k < length (right scenario1))%nat -> done_from 6 k = None) /\
  exists vs,
    out (ValuesContext reflect_DeepEqual GoNil (done_from 6)
           (after reflect_DeepEqual GoNil [] scenario1)) = Ok vs /\
    out (Values reflect_DeepEqual GoNil (after reflect_DeepEqual GoNil [] scenario1))
    = Ok (Some vs).
Proof.
  assert (H : forall k, (k < length (right scenario1))%nat -> done_from 6 k = None)
    by (intros k Hk; by apply done_from_before).
  split; [exact H|].
  destruct (later_polls_are_never_made reflect_DeepEqual GoNil (left scenario1)
              (right scenario1) [] (done_from 6) H)
    as (t & k & ps & vs & _ & _ & _ & _ & _ & _ & H1 & H2).
  exists vs. split; [exact H1|exact H2].
Defined.

Lemma first_done_poll_decides_witness :
  table (after reflect_DeepEqual GoNil [] scenario1) = None /\
  (2 < length (right scenario1))%nat /\ done_from 2 2%nat = Some Canceled /\
  (forall j, (j < 2)%nat -> done_from 2 j = None) /\
  out (TableContext reflect_DeepEqual (done_from 2)
         (after reflect_DeepEqual GoNil [] scenario1)) = Err Canceled /\
  sess (TableContext reflect_DeepEqual (done_from 2)
          (after reflect_DeepEqual GoNil [] scenario1))
  = after reflect_DeepEqual GoNil [] scenario1.
Proof.
  assert (H2 : (2 < length (right scenario1))%nat) by (simpl; lia).
  split; [reflexivity|]. split; [exact H2|]. split; [exact (done_from_at 2)|].
  split; [exact (done_from_before 2)|].
  exact (first_done_poll_decides reflect_DeepEqual GoNil (left scenario1) (right scenario1)
           [] (done_from 2) 2 Canceled eq_refl H2 (done_from_at 2) (done_from_before 2)).
Defined.

Lemma no_failure_once_table_cached_witness :
  is_Some (table (after reflect_DeepEqual GoNil [CallTable] scenario1)) /\
  exists vs,
    out (ValuesContext reflect_DeepEqual GoNil cancelled
           (after reflect_DeepEqual GoNil [CallTable] scenario1)) = Ok vs /\
    out (Values reflect_DeepEqual GoNil
           (after reflect_DeepEqual GoNil [CallTable] scenario1)) = Ok (Some vs).
Proof.
  assert (H : is_Some (table (after reflect_DeepEqual GoNil [CallTable] scenario1)))
    by (eexists; reflexivity).
  split; [exact H|].
  destruct (no_failure_once_table_cached reflect_DeepEqual GoNil (left scenario1)
              (right scenario1) [CallTable] cancelled H)
    as (t & k & ps & vs & _ & _ & _ & _ & _ & _ & H1 & H2).
  exists vs. split; [exact H1|exact H2].
Defined.

Lemma cache_filled_in_order_witness :
  is_Some (values (after reflect_DeepEqual GoNil [CallValues] scenario3)) /\
  is_Some (indexPairs (after reflect_DeepEqual GoNil [CallValues] scenario3)) /\
  is_Some (table (after reflect_DeepEqual GoNil [CallValues] scenario3)).
Proof.
  assert (H : is_Some (values (after reflect_DeepEqual GoNil [CallValues] scenario3)))
    by (eexists; reflexivity).
  destruct (cache_filled_in_order reflect_DeepEqual GoNil (left scenario3) (right scenario3)
              [CallValues]) as [H1 H2].
  split; [exact H|]. split; [exact (H1 H)|exact (H2 (H1 H))].
Defined.

Lemma cache_holds_fresh_results_witness :
  values (after reflect_DeepEqual GoNil [CallValues] scenario3)
  = Some (strs ["1"; "2"; "3"]) /\
  out (Values reflect_DeepEqual GoNil scenario3) = Ok (Some (strs ["1"; "2"; "3"])).
Proof.
  split; [reflexivity|].
  apply (cache_holds_fresh_results reflect_DeepEqual GoNil (left scenario3) (right scenario3)
           [CallValues]).
  reflexivity.
Defined.

Lemma Length_symmetric_witness :
  (forall u v, reflect_DeepEqual u v = reflect_DeepEqual v u) /\
  out (Length reflect_DeepEqual (after reflect_DeepEqual GoNil [] scenario1))
  = out (Length reflect_DeepEqual
           (after reflect_DeepEqual GoNil [] (New (right scenario1) (left scenario1)))).
Proof.
  split; [exact reflect_DeepEqual_sym|].
  exact (Length_symmetric reflect_DeepEqual GoNil (left scenario1) (right scenario1) [] []
           reflect_DeepEqual_sym).
Defined.

Lemma Length_monotone_witness :
  strs ["A"] `sublist_of` strs ["A"; "B"] /\ strs ["B"; "A"] `sublist_of` strs ["B"; "A"] /\
  exists k k',
    out (Length reflect_DeepEqual
           (after reflect_DeepEqual GoNil [] (New (strs ["A"]) (strs ["B"; "A"])))) = Ok k /\
    out (Length reflect_DeepEqual
           (after reflect_DeepEqual GoNil [] (New (strs ["A"; "B"]) (strs ["B"; "A"])))) = Ok k' /\
    k <= k'.
Proof.
  assert (H1 : strs ["A"] `sublist_of` strs ["A"; "B"])
    by (apply sublist_skip, sublist_cons, sublist_nil_l).
  assert (H2 : strs ["B"; "A"] `sublist_of` strs ["B"; "A"]) by reflexivity.
  split; [exact H1|]. split; [exact H2|].
  exact (Length_monotone reflect_DeepEqual GoNil _ _ _ _ [] [] H1 H2).
Defined.

Lemma TableContext_work_witness :
  table scenario1 = None /\
  (forall k, (k < length (right scenario1))%nat -> Background k = None) /\
  work (TableContext reflect_DeepEqual Background scenario1) = (7 * 6 + (7 + 2))%nat.
Proof.
  split; [reflexivity|]. split; [intros k _; reflexivity|].
  exact (TableContext_work reflect_DeepEqual scenario1 Background eq_refl
           (fun k _ => eq_refl)).
Defined.



